(** * Minimum-phase QAM transform and sliding-window dataset builders

    A shallow embedding of [Funcoes.py]: the minimum-phase transform
    ([sinal_qam_fase_min]), its inverse ([reverter_sinal_fase_min]), the
    amplitude/phase split ([abs_and_phases]) and the four dataset builders
    ([dataset_01], [dataset_02], [dataset_03], [dataset_02_CNN]).

    Samples are modelled over exact arithmetic: a NumPy [float64] is a real
    number of [R] and a [complex128] is a pair of reals.  Python integers are
    [Z]; NumPy arrays are lists; a raised exception is the [Raise] branch of
    [result]. *)

From Stdlib Require Import Reals Lra ZArith Lia.
From stdpp Require Import base list.

Local Open Scope Z_scope.

(** ** Exceptions and the error monad *)

Inductive exn : Set :=
| IndexError   (* indexing past the end of an array axis *)
| ValueError.  (* NumPy shape errors: negative dimensions, failed broadcast or
                  reshape, reduction of an empty array *)

Inductive result (A : Type) : Type :=
| Return (a : A)
| Raise (e : exn).
Arguments Return {A} a.
Arguments Raise {A} e.

#[global] Instance result_ret : MRet result := λ A a, Return a.
#[global] Instance result_bind : MBind result := λ A B k m,
  match m with
  | Return a => k a
  | Raise e => Raise e
  end.

Definition returns {A} (m : result A) : Prop := ∃ a, m = Return a.
Definition raises {A} (m : result A) : Prop := ∃ e, m = Raise e.

(** ** Complex samples *)

Module Cplx.
Local Open Scope R_scope.

Definition C : Type := R * R.

Definition RtoC (x : R) : C := (x, 0).
Definition Ci : C := (0, 1).

Definition Cplus (z w : C) : C := (z.1 + w.1, z.2 + w.2).
Definition Cminus (z w : C) : C := (z.1 - w.1, z.2 - w.2).
Definition Cmult (z w : C) : C :=
  (z.1 * w.1 - z.2 * w.2, z.1 * w.2 + z.2 * w.1).
Definition Cdiv (z w : C) : C :=
  ((z.1 * w.1 + z.2 * w.2) / (w.1 * w.1 + w.2 * w.2),
   (z.2 * w.1 - z.1 * w.2) / (w.1 * w.1 + w.2 * w.2)).

(** [np.exp] on a complex argument. *)
Definition Cexp (z : C) : C := (exp z.1 * cos z.2, exp z.1 * sin z.2).

(** [np.abs] on a complex sample. *)
Definition Cabs (z : C) : R := sqrt (z.1 * z.1 + z.2 * z.2).

(** The two-argument arctangent behind [np.angle]. *)
Definition atan2 (y x : R) : R :=
  if Rlt_dec 0 x then atan (y / x)
  else if Rlt_dec x 0 then
    if Rle_dec 0 y then atan (y / x) + PI else atan (y / x) - PI
  else if Rlt_dec 0 y then PI / 2
  else if Rlt_dec y 0 then - (PI / 2)
  else 0.

(** [np.angle]: [arctan2(z.imag, z.real)]. *)
Definition Cangle (z : C) : R := atan2 z.2 z.1.
End Cplx.
Export Cplx.

(** ** Arrays

    A one-dimensional array is a list, a two-dimensional one a list of rows.
    [slice l i j] is Python's [l[i:j]]: a negative bound counts from the end,
    and both bounds are clamped to the array, so a slice never raises. *)

Definition clamp_index (len i : Z) : Z :=
  if decide (i < 0) then Z.max (i + len) 0 else Z.min i len.

Definition slice {A} (l : list A) (start stop : Z) : list A :=
  let len := Z.of_nat (length l) in
  let lo := clamp_index len start in
  let hi := clamp_index len stop in
  take (Z.to_nat (hi - lo)) (drop (Z.to_nat lo) l).

(** [a[0]] on the first axis. *)
Definition getitem0 {A} (a : list A) : result A :=
  match a with
  | [] => Raise IndexError
  | x :: _ => Return x
  end.

(** [np.max] of a flat array of reals; an empty array has no maximum. *)
Definition np_max (l : list R) : result R :=
  match l with
  | [] => Raise ValueError
  | x :: xs => Return (foldl Rmax x xs)
  end.

(** Elementwise binary operation on two one-dimensional arrays under NumPy's
    broadcasting rule: equal lengths, or one operand of length one. *)
Definition broadcast2 {A B D} (f : A → B → D) (xs : list A) (ys : list B)
  : result (list D) :=
  if decide (length xs = length ys) then Return (zip_with f xs ys)
  else match xs, ys with
       | [x], _ => Return (f x <$> ys)
       | _, [y] => Return ((λ x, f x y) <$> xs)
       | _, _ => Raise ValueError
       end.

(** A [(modes, samples)] array against a one-dimensional one: the trailing
    axes are broadcast, row by row. *)
Definition broadcast_rows {A B D} (f : A → B → D) (a : list (list A))
    (ys : list B) : result (list (list D)) :=
  mapM (λ row, broadcast2 f row ys) a.

(** ** Signals

    A [qampy] signal object: the sample array, one row per mode, with its
    sampling rate [fs] and symbol rate [fb]. *)

Record Signal : Type := mkSignal {
  modes : list (list C);
  fs : R;
  fb : R
}.

(** ** The minimum-phase transform and its inverse *)

Section MinimumPhase.
Local Open Scope R_scope.

Definition deg2rad (d : R) : R := d * (PI / 180).

(** [np.arange(0, n)*1/fs] *)
Definition time_vector (n : nat) (fs : R) : list R :=
  (λ k : Z, IZR (k * 1) / fs) <$> seqZ 0 (Z.of_nat n).

(** [2*np.pi*(fb/2)*t] *)
Definition Δf_ramp (fb : R) (t : list R) : list R :=
  (λ tk, 2 * PI * (fb / 2) * tk) <$> t.

(** [np.exp(1j*Δf)] *)
Definition carrier (Δf : list R) : list C :=
  (λ x, Cexp (Cmult Ci (RtoC x))) <$> Δf.

(** Lines 28-34 of [sinal_qam_fase_min]: everything after the external
    signal chain has produced the noisy signal [s] and its filtered version
    [sfilt].  The time vector is taken from [s], the symbol rate from
    [sfilt]; the result keeps the attributes of [sfilt]. *)
Definition fase_min (s sfilt : Signal) : result (Signal * C) :=
  s0 ← getitem0 (modes s);
  let t := time_vector (length s0) (fs s) in
  peak ← np_max (mjoin ((λ row : list C, Cabs <$> row) <$> modes sfilt));
  let A := Cmult (RtoC peak) (Cexp (Cmult Ci (RtoC (deg2rad 45)))) in
  let Δf := Δf_ramp (fb sfilt) t in
  prod ← broadcast_rows Cmult (modes sfilt) (carrier Δf);
  let sfm :=
    mkSignal ((λ row : list C, Cplus A <$> row) <$> prod) (fs sfilt) (fb sfilt) in
  Return (sfm, A).

(** The signal source, the noise simulation and the pulse-shaping filter
    belong to the external [qampy] toolkit; they are parameters here and may
    fail. *)
Variable ResampledQAM :
  ∀ (M N : Z) (fb fs : R) (nmodes : Z) (beta : R), result Signal.
Variable simulate_transmission : ∀ (s : Signal) (snr : R), result Signal.
Variable lowpassFilter :
  ∀ (s : Signal) (fs T beta : R) (taps : Z), result Signal.
Variable normcenter : Signal → result Signal.

(** Lines 23-27: the noisy signal and its filtered version. *)
Definition signal_chain (M : Z) (Fb : R) (SpS : Z) (SNR rolloff : R)
  : result (Signal * Signal) :=
  let Fs := IZR SpS * Fb in
  s ← ResampledQAM M (2 ^ 16)%Z Fb Fs 1%Z rolloff;
  s ← simulate_transmission s SNR;
  f ← lowpassFilter s Fs (1 / Fb) (1 / 1000) 4001%Z;
  sfilt ← normcenter f;
  Return (s, sfilt).

Definition sinal_qam_fase_min (M : Z) (Fb : R) (SpS : Z) (SNR rolloff : R)
  : result (Signal * C) :=
  '(s, sfilt) ← signal_chain M Fb SpS SNR rolloff;
  fase_min s sfilt.

Definition reverter_sinal_fase_min (sinal : Signal) (A : C) : result Signal :=
  let sinal_fase_min := sinal in
  m0 ← getitem0 (modes sinal_fase_min);
  let t := time_vector (length m0) (fs sinal_fase_min) in
  let Δf := Δf_ramp (fb sinal_fase_min) t in
  let diff :=
    (λ row : list C, (λ z, Cminus z A) <$> row) <$> modes sinal_fase_min in
  quot ← broadcast_rows Cdiv diff (carrier Δf);
  Return (mkSignal quot (fs sinal_fase_min) (fb sinal_fase_min)).

End MinimumPhase.

(** ** Amplitude/phase split *)

(** The dictionary [{'amplitudes': ..., 'phases': ...}]. *)
Record Data : Type := mkData {
  amplitudes : list R;
  phases : list R
}.

(** Both traces are read off a copy of the first mode; the argument is not
    written to. *)
Definition abs_and_phases (sfm : Signal) : result Data :=
  m0 ← getitem0 (modes sfm);
  let amplitudes := Cabs <$> m0 in
  m0' ← getitem0 (modes sfm);
  let phases := Cangle <$> m0' in
  Return (mkData amplitudes phases).

(** ** Dataset builders *)

(** The row count every builder hard-codes as [size = 60000]. *)
Definition size : Z := 60000.

(** [np.zeros((rows, cols))]; a negative dimension is refused. *)
Definition np_zeros2 (rows cols : Z) : result (list (list R)) :=
  if decide (rows < 0 ∨ cols < 0) then Raise ValueError
  else Return (replicate (Z.to_nat rows) (replicate (Z.to_nat cols) 0%R)).

(** [np.zeros((rows, r, c))] *)
Definition np_zeros3 (rows r c : Z) : result (list (list (list R))) :=
  if decide (rows < 0 ∨ r < 0 ∨ c < 0) then Raise ValueError
  else Return (replicate (Z.to_nat rows)
                 (replicate (Z.to_nat r) (replicate (Z.to_nat c) 0%R))).

(** [X[n] = aux] for a two-dimensional [X] and a one-dimensional [aux]: the
    source is broadcast to the length of the row it overwrites, which works
    when the lengths agree or the source has exactly one element. *)
Definition setitem_row (X : list (list R)) (n : Z) (aux : list R)
  : result (list (list R)) :=
  match X !! Z.to_nat n with
  | None => Raise IndexError
  | Some old =>
      if decide (length aux = length old) then Return (<[Z.to_nat n := aux]> X)
      else match aux with
           | [a] => Return (<[Z.to_nat n := replicate (length old) a]> X)
           | _ => Raise ValueError
           end
  end.

(** The loop [for n in range(size): aux = amplitudes[n:ordem+n]; X[n] = aux],
    over the list of row indices still to visit. *)
Fixpoint fill_windows (amps : list R) (ordem : Z) (ns : list Z)
    (X : list (list R)) : result (list (list R)) :=
  match ns with
  | [] => Return X
  | n :: ns' =>
      let aux := slice amps n (ordem + n) in
      X' ← setitem_row X n aux;
      fill_windows amps ordem ns' X'
  end.

(** [int(ordem/2)]: the true quotient truncated towards zero (exact for any
    width whose array fits in memory). *)
Definition int_half (ordem : Z) : Z := Z.quot ordem 2.

(** The three flat builders differ in the slice that cuts the targets and the
    returned traces.  [y.reshape(-1,)] leaves a one-dimensional [y] as it is. *)
Definition dataset_01 (sfm : Signal) (ordem : Z)
  : result (Data * list (list R) * list R) :=
  data ← abs_and_phases sfm;
  let amps := amplitudes data in
  let phs := phases data in
  X ← np_zeros2 size ordem;
  X ← fill_windows amps ordem (seqZ 0 size) X;
  let y := slice phs (ordem - 1) (size + ordem - 1) in
  let data :=
    mkData (slice (amplitudes data) (ordem - 1) (size + ordem - 1))
           (phases data) in
  let data :=
    mkData (amplitudes data)
           (slice (phases data) (ordem - 1) (size + ordem - 1)) in
  Return (data, X, y).

Definition dataset_02 (sfm : Signal) (ordem : Z)
  : result (Data * list (list R) * list R) :=
  data ← abs_and_phases sfm;
  let amps := amplitudes data in
  let phs := phases data in
  X ← np_zeros2 size ordem;
  X ← fill_windows amps ordem (seqZ 0 size) X;
  let y := slice phs (int_half ordem) (size + int_half ordem) in
  let data :=
    mkData (slice (amplitudes data) (int_half ordem) (size + int_half ordem))
           (phases data) in
  let data :=
    mkData (amplitudes data)
           (slice (phases data) (int_half ordem) (size + int_half ordem)) in
  Return (data, X, y).

Definition dataset_03 (sfm : Signal) (ordem : Z)
  : result (Data * list (list R) * list R) :=
  data ← abs_and_phases sfm;
  let amps := amplitudes data in
  let phs := phases data in
  X ← np_zeros2 size ordem;
  X ← fill_windows amps ordem (seqZ 0 size) X;
  let y := slice phs 0 size in
  let data := mkData (slice (amplitudes data) 0 size) (phases data) in
  let data := mkData (amplitudes data) (slice (phases data) 0 size) in
  Return (data, X, y).

(** [a.reshape(r, c)] of a one-dimensional array, row-major. *)
Fixpoint chunks {A} (r c : nat) (l : list A) : list (list A) :=
  match r with
  | O => []
  | S r' => take c l :: chunks r' c (drop c l)
  end.

Definition reshape2 (l : list R) (r c : Z) : result (list (list R)) :=
  if decide (r < 0 ∨ c < 0) then Raise ValueError
  else if decide (Z.of_nat (length l) = r * c)
       then Return (chunks (Z.to_nat r) (Z.to_nat c) l)
       else Raise ValueError.

(** [X[n] = aux] for a three-dimensional [X] and a grid [aux]: the grid
    replaces the slot when the shapes agree.  ([reshape2] hands over a grid of
    the shape of the slot, so NumPy's broadcasting of other shapes never
    comes into play.) *)
Definition setitem_grid (X : list (list (list R))) (n : Z)
    (aux : list (list R)) : result (list (list (list R))) :=
  match X !! Z.to_nat n with
  | None => Raise IndexError
  | Some old =>
      if decide (length <$> aux = length <$> old)
      then Return (<[Z.to_nat n := aux]> X)
      else Raise ValueError
  end.

Fixpoint fill_grids (amps : list R) (ordem : Z) (ns : list Z)
    (X : list (list (list R))) : result (list (list (list R))) :=
  match ns with
  | [] => Return X
  | n :: ns' =>
      aux ← reshape2 (slice amps n (ordem * ordem + n)) ordem ordem;
      X' ← setitem_grid X n aux;
      fill_grids amps ordem ns' X'
  end.

(** [X.reshape((size, ordem, ordem, 1))]: a trailing axis of length one. *)
Definition add_channel_axis (X : list (list (list R)))
  : list (list (list (list R))) :=
  (λ grid : list (list R),
     (λ row : list R, (λ x : R, [x]) <$> row) <$> grid) <$> X.

Definition dataset_02_CNN (sfm : Signal) (ordem : Z)
  : result (Data * list (list (list (list R))) * list R) :=
  data ← abs_and_phases sfm;
  let amps := amplitudes data in
  let phs := phases data in
  X ← np_zeros3 size ordem ordem;
  X ← fill_grids amps ordem (seqZ 0 size) X;
  let X := add_channel_axis X in
  let y := slice phs 0 size in
  let data := mkData (slice (amplitudes data) 0 size) (phases data) in
  let data := mkData (amplitudes data) (slice (phases data) 0 size) in
  Return (data, X, y).

(** ** Specification vocabulary *)

(** The [k] consecutive samples of [l] starting at offset [n]. *)
Definition window {A} (l : list A) (n k : nat) : list A := take k (drop n l).

(** The row that [X[n] = aux] leaves in a slot of length [k], if any. *)
Definition stored_row (k : nat) (aux : list R) : option (list R) :=
  if decide (length aux = k) then Some aux
  else match aux with
       | [a] => Some (replicate k a)
       | _ => None
       end.

(** The four builders and, for each, the offset of the target inside the
    trace and the number of amplitude samples per feature row, in the words of
    the alignment table. *)
Inductive variant : Set := Last | Center | First | FirstCNN.

Definition target_offset (v : variant) (order : Z) : Z :=
  match v with
  | Last => order - 1
  | Center => order / 2
  | First | FirstCNN => 0
  end.

Definition window_width (v : variant) (order : Z) : Z :=
  match v with
  | FirstCNN => order * order
  | _ => order
  end.

(** The returned traces and targets of a builder, forgetting the features. *)
Definition traces {XT} (r : result (Data * XT * list R))
  : result (Data * list R) :=
  '(data, _, y) ← r; Return (data, y).

Definition builder_traces (v : variant) (sfm : Signal) (ordem : Z)
  : result (Data * list R) :=
  match v with
  | Last => traces (dataset_01 sfm ordem)
  | Center => traces (dataset_02 sfm ordem)
  | First => traces (dataset_03 sfm ordem)
  | FirstCNN => traces (dataset_02_CNN sfm ordem)
  end.

(** [X] has the NumPy shape [(d0, d1, d2, d3)]. *)
Definition shape4 {A} (X : list (list (list (list A)))) (d0 d1 d2 d3 : Z)
  : Prop :=
  Z.of_nat (length X) = d0 ∧
  Forall (λ grid,
    Z.of_nat (length grid) = d1 ∧
    Forall (λ row,
      Z.of_nat (length row) = d2 ∧
      Forall (λ cell, Z.of_nat (length cell) = d3) row) grid) X.

(** ** Test signals *)

(** A one-mode signal of [n] samples, sample [k] being the real number [k],
    and its amplitude and phase traces. *)
Definition ramp_samples (n : Z) : list C :=
  (λ k : Z, (IZR k, 0%R)) <$> seqZ 0 n.

Definition ramp_signal (n : Z) : Signal := mkSignal [ramp_samples n] 1%R 1%R.

Definition ramp_data (n : Z) : Data :=
  mkData (Cabs <$> ramp_samples n) (Cangle <$> ramp_samples n).

(** A short two-mode signal sampled at 8 per second with symbol rate 2, and
    a signal chain that delivers it whatever is asked. *)
Definition short_samples : list C := [(3, 4); (0, 1); (-1, 0)]%R.

Definition short_signal : Signal :=
  mkSignal [short_samples; [(0, 0); (1, 1); (0, -2)]%R] (IZR 4 * 2)%R 2%R.

Definition fixed_source (M N : Z) (fb fs : R) (nmodes : Z) (beta : R)
  : result Signal := Return short_signal.
Definition no_noise (s : Signal) (snr : R) : result Signal := Return s.
Definition no_filter (s : Signal) (fs T beta : R) (taps : Z)
  : result Signal := Return s.
Definition no_normalisation (s : Signal) : result Signal := Return s.

(** ** The export script [Dataset_test_02.py]

    The script builds its minimum-phase signal with the statements of
    [sinal_qam_fase_min] (here [fase_min]), on two modes, and cuts one table
    per mode: blocks of [n_features] amplitudes that do not overlap, each
    followed by the phase of the first sample of the block. *)

Definition SpS_02 : Z := 4.
Definition n_features : Z := SpS_02 * 2.
Definition size_02 : Z := 5000.

(** [a[i]] on the first axis, for an index that is not negative. *)
Definition getitem_at {A} (a : list A) (i : nat) : result A :=
  match a !! i with
  | Some x => Return x
  | None => Raise IndexError
  end.

(** Every [step]-th element, the first one after [skip] elements. *)
Fixpoint stride_from {A} (step skip : nat) (l : list A) : list A :=
  match l with
  | [] => []
  | x :: l' =>
      match skip with
      | O => x :: stride_from step (pred step) l'
      | S skip' => stride_from step skip' l'
      end
  end.

(** [l[::step]]: a zero step is refused, a negative one walks backwards from
    the last element. *)
Definition strided {A} (l : list A) (step : Z) : result (list A) :=
  if decide (step = 0) then Raise ValueError
  else if decide (0 < step) then Return (stride_from (Z.to_nat step) 0 l)
  else Return (stride_from (Z.to_nat (- step)) 0 (reverse l)).

(** [a.reshape(-1, c)] of a one-dimensional array: the row count is inferred,
    which needs a positive [c] that divides the length. *)
Definition reshape_rows {A} (l : list A) (c : Z) : result (list (list A)) :=
  if decide (c ≤ 0) then Raise ValueError
  else if decide (Z.of_nat (length l) mod c = 0)
       then Return (chunks (Z.to_nat (Z.of_nat (length l) / c)) (Z.to_nat c) l)
       else Raise ValueError.

(** [a.reshape(-1, 1)]: one column. *)
Definition as_column {A} (l : list A) : list (list A) := (λ x, [x]) <$> l.

(** [np.concatenate((a, b), axis=1)] of two two-dimensional arrays: the row
    counts have to agree. *)
Definition concatenate_columns {A} (a b : list (list A))
  : result (list (list A)) :=
  if decide (length a = length b) then Return (zip_with app a b)
  else Raise ValueError.

(** Lines 44-66: the training table from mode 0, the test table from mode
    1. *)
Definition dataset_tables (sfm : Signal)
  : result (list (list R) * list (list R)) :=
  m0 ← getitem_at (modes sfm) 0;
  let amplitudes_train := Cabs <$> m0 in
  m0s ← strided m0 n_features;
  let phases_train := Cangle <$> m0s in
  m1 ← getitem_at (modes sfm) 1;
  let amplitudes_test := Cabs <$> m1 in
  m1s ← strided m1 n_features;
  let phases_test := Cangle <$> m1s in
  X_train ← reshape_rows amplitudes_train n_features;
  let X_train := slice X_train 0 size_02 in
  X_test ← reshape_rows amplitudes_test n_features;
  let X_test := slice X_test 0 size_02 in
  let y_train := slice (as_column phases_train) 0 size_02 in
  let y_test := slice (as_column phases_test) 0 size_02 in
  dataset_train ← concatenate_columns X_train y_train;
  dataset_test ← concatenate_columns X_test y_test;
  Return (dataset_train, dataset_test).

(** Lines 34-66, from the noisy and the filtered signal on. *)
Definition dataset_test_02 (s sfilt : Signal)
  : result (list (list R) * list (list R)) :=
  '(sfm, A) ← fase_min s sfilt;
  dataset_tables sfm.

(** The feature array of a builder, forgetting traces and targets. *)
Definition features {XT} (r : result (Data * XT * list R)) : result XT :=
  '(_, X, _) ← r; Return X.

(** * Properties *)

(** ** Complex arithmetic *)

Section ComplexFacts.
Local Open Scope R_scope.

Lemma Cexp_i (θ : R) : Cexp (Cmult Ci (RtoC θ)) = (cos θ, sin θ).
Proof.
  unfold Cexp, Cmult, Ci, RtoC; cbn [fst snd].
  replace (0 * θ - 1 * 0) with 0 by ring.
  replace (0 * 0 + 1 * θ) with θ by ring.
  rewrite exp_0. f_equal; ring.
Qed.

Lemma cos_sin_unit (θ : R) : cos θ * cos θ + sin θ * sin θ = 1.
Proof. pose proof (sin2_cos2 θ) as H. unfold Rsqr in H. lra. Qed.

(** Removing the offset and the carrier undoes adding them. *)
Lemma carrier_cancel (A z : C) (θ : R) :
  Cdiv (Cminus (Cplus A (Cmult z (Cexp (Cmult Ci (RtoC θ))))) A)
       (Cexp (Cmult Ci (RtoC θ))) = z.
Proof.
  rewrite Cexp_i. destruct A as [a1 a2], z as [x y].
  unfold Cdiv, Cminus, Cplus, Cmult; cbn [fst snd].
  rewrite cos_sin_unit.
  pose proof (cos_sin_unit θ) as H.
  f_equal.
  - transitivity (x * (cos θ * cos θ + sin θ * sin θ)); [field | rewrite H; ring].
  - transitivity (y * (cos θ * cos θ + sin θ * sin θ)); [field | rewrite H; ring].
Qed.

Lemma Cabs_nonneg (z : C) : 0 <= Cabs z.
Proof. apply sqrt_pos. Qed.

Lemma atan2_range (y x : R) : - PI < atan2 y x <= PI.
Proof.
  pose proof PI_RGT_0 as Hpi.
  unfold atan2.
  destruct (Rlt_dec 0 x) as [Hx|Hx].
  { pose proof (atan_bound (y / x)). lra. }
  destruct (Rlt_dec x 0) as [Hx'|Hx'].
  - assert (/ x < 0) as Hinv by (apply Rinv_lt_0_compat; lra).
    destruct (Rle_dec 0 y) as [Hy|Hy].
    + assert (atan (y / x) <= 0) as Hle.
      { destruct (Req_dec y 0) as [->|Hne].
        - unfold Rdiv. rewrite Rmult_0_l, atan_0. lra.
        - rewrite <- atan_0. left. apply atan_increasing.
          unfold Rdiv. nra. }
      pose proof (atan_bound (y / x)). lra.
    + assert (0 < atan (y / x)) as Hlt.
      { rewrite <- atan_0. apply atan_increasing. unfold Rdiv. nra. }
      pose proof (atan_bound (y / x)). lra.
  - destruct (Rlt_dec 0 y); [lra|]. destruct (Rlt_dec y 0); lra.
Qed.

Lemma Cangle_range (z : C) : - PI < Cangle z <= PI.
Proof. apply atan2_range. Qed.

Lemma deg2rad_45 : deg2rad 45 = PI / 4.
Proof. unfold deg2rad. field. Qed.

Lemma cos_PI4_pos : 0 < cos (PI / 4).
Proof.
  apply cos_gt_0; pose proof PI_RGT_0; lra.
Qed.

(** A non-negative real scaled by [exp(i·45°)] has that real as magnitude. *)
Lemma Cabs_rotated (p : R) :
  0 <= p → Cabs (Cmult (RtoC p) (Cexp (Cmult Ci (RtoC (deg2rad 45))))) = p.
Proof.
  intros Hp. rewrite Cexp_i. unfold Cabs, Cmult, RtoC; cbn [fst snd].
  set (θ := deg2rad 45).
  replace ((p * cos θ - 0 * sin θ) * (p * cos θ - 0 * sin θ) +
           (p * sin θ + 0 * cos θ) * (p * sin θ + 0 * cos θ))
    with ((p * p) * (cos θ * cos θ + sin θ * sin θ)) by ring.
  rewrite cos_sin_unit, Rmult_1_r. by apply sqrt_square.
Qed.

(** ... and, when it is positive, 45 degrees as phase. *)
Lemma Cangle_rotated (p : R) :
  0 < p → Cangle (Cmult (RtoC p) (Cexp (Cmult Ci (RtoC (deg2rad 45))))) = PI / 4.
Proof.
  intros Hp. rewrite Cexp_i, deg2rad_45.
  unfold Cangle, atan2, Cmult, RtoC; cbn [fst snd].
  pose proof cos_PI4_pos as Hc.
  rewrite sin_cos_PI4.
  destruct (Rlt_dec 0 (p * cos (PI / 4) - 0 * cos (PI / 4))) as [_|Hn].
  - replace ((p * cos (PI / 4) + 0 * cos (PI / 4)) /
             (p * cos (PI / 4) - 0 * cos (PI / 4))) with 1 by (field; nra).
    apply atan_1.
  - exfalso. apply Hn. nra.
Qed.

End ComplexFacts.

(** ** The transform on arrays *)

Section TransformFacts.
Local Open Scope R_scope.

Lemma mapM_Return {A B} (f : A → result B) (g : A → B) (l : list A) :
  Forall (λ x, f x = Return (g x)) l → mapM f l = Return (g <$> l).
Proof.
  induction 1 as [|x l Hx _ IH]; [done|].
  change (mapM f (x :: l)) with (y ← f x; k ← mapM f l; mret (y :: k)).
  by rewrite Hx, IH.
Qed.

Lemma broadcast2_same_length {A B D} (f : A → B → D) xs ys :
  length xs = length ys → broadcast2 f xs ys = Return (zip_with f xs ys).
Proof. intros H. unfold broadcast2. by rewrite decide_True. Qed.

Lemma broadcast_rows_rect {A B D} (f : A → B → D) (a : list (list A)) ys :
  Forall (λ row, length row = length ys) a →
  broadcast_rows f a ys = Return ((λ row, zip_with f row ys) <$> a).
Proof.
  intros H. apply mapM_Return. eapply Forall_impl; [exact H|].
  intros row Hrow. by apply broadcast2_same_length.
Qed.

Lemma length_carrier_ramp (fb0 fs0 : R) (n : nat) :
  length (carrier (Δf_ramp fb0 (time_vector n fs0))) = n.
Proof.
  unfold carrier, Δf_ramp, time_vector.
  rewrite !length_fmap, length_seqZ. lia.
Qed.

Lemma lookup_time_vector (fs0 : R) (n k : nat) :
  (k < n)%nat → time_vector n fs0 !! k = Some (IZR (Z.of_nat k) / fs0).
Proof.
  intros Hk. unfold time_vector.
  rewrite list_lookup_fmap, lookup_seqZ_lt by lia. cbn.
  do 3 f_equal. lia.
Qed.

(** Undoing one row: subtract the offset, divide by the carrier. *)
Lemma row_round_trip (A : C) (row : list C) (Δ : list R) :
  length row = length Δ →
  zip_with Cdiv
    ((λ z, Cminus z A) <$> (Cplus A <$> zip_with Cmult row (carrier Δ)))
    (carrier Δ) = row.
Proof.
  revert Δ. induction row as [|z row IH]; intros [|θ Δ] Hlen;
    try done; cbn in *.
  f_equal; [apply carrier_cancel|]. apply IH. lia.
Qed.

Lemma np_max_spec (l : list R) (m : R) :
  np_max l = Return m → m ∈ l ∧ ∀ x, x ∈ l → x <= m.
Proof.
  destruct l as [|x xs]; [done|]. cbn. intros [= <-].
  revert x. induction xs as [|y ys IH]; intros x; cbn.
  - split; [apply list_elem_of_here|].
    intros z ->%list_elem_of_singleton. lra.
  - destruct (IH (Rmax x y)) as [Hin Hub]. split.
    + apply elem_of_cons in Hin as [Heq|Hin].
      * rewrite Heq. apply Rmax_case; [left | right; left].
      * by do 2 right.
    + intros z Hz. apply elem_of_cons in Hz as [->|Hz].
      * etrans; [apply Rmax_l | apply Hub; left].
      * apply elem_of_cons in Hz as [->|Hz].
        -- etrans; [apply Rmax_r | apply Hub; left].
        -- apply Hub. by right.
Qed.

Lemma getitem0_fmap {A B} (f : A → B) (l : list A) :
  l ≠ [] → ∃ x, l !! 0%nat = Some x ∧ getitem0 (f <$> l) = Return (f x).
Proof. destruct l as [|x l]; [done|]. intros _. by exists x. Qed.

Lemma getitem0_lookup {A} (l : list A) (x : A) :
  l !! 0%nat = Some x → getitem0 l = Return x.
Proof. destruct l; [done|]. by intros [= ->]. Qed.

Lemma np_max_returns (l : list R) : l ≠ [] → returns (np_max l).
Proof. destruct l; [done|]. intros _. by eexists. Qed.

End TransformFacts.

(** ** Minimum-phase transform: forward contract and round trip *)

Section MinimumPhaseFacts.
Local Open Scope R_scope.

Lemma peak_returns (sfilt : Signal) (n : nat) :
  modes sfilt ≠ [] → n ≠ O →
  Forall (λ row, length row = n) (modes sfilt) →
  returns (np_max (mjoin ((λ row : list C, Cabs <$> row) <$> modes sfilt))).
Proof.
  intros Hne Hn Hrect. apply np_max_returns.
  destruct (modes sfilt) as [|row rows]; [done|].
  apply Forall_cons in Hrect as [Hrow _].
  destruct row as [|z row]; [cbn in Hrow; congruence|done].
Qed.

(** What [fase_min] returns on a rectangular, non-empty input. *)
Lemma fase_min_rect (s sfilt : Signal) (s0 : list C) :
  modes s !! 0%nat = Some s0 →
  modes sfilt ≠ [] → s0 ≠ [] →
  Forall (λ row, length row = length s0) (modes sfilt) →
  ∃ peak,
    np_max (mjoin ((λ row : list C, Cabs <$> row) <$> modes sfilt))
      = Return peak ∧
    let A := Cmult (RtoC peak) (Cexp (Cmult Ci (RtoC (deg2rad 45)))) in
    let car := carrier (Δf_ramp (fb sfilt) (time_vector (length s0) (fs s))) in
    fase_min s sfilt =
      Return (mkSignal
                ((λ row : list C, Cplus A <$> zip_with Cmult row car)
                   <$> modes sfilt)
                (fs sfilt) (fb sfilt), A).
Proof.
  intros Hs0 Hne Hs0ne Hrect.
  destruct (peak_returns sfilt (length s0)) as [peak Hpeak]; try done.
  { by destruct s0. }
  exists peak. split; [done|]. cbn zeta.
  unfold fase_min. destruct (modes s) as [|s0' rest]; [done|].
  cbn in Hs0. injection Hs0 as ->. cbn [getitem0].
  change (Return s0 ≫= ?k) with (k s0). cbn beta.
  rewrite Hpeak. change (Return peak ≫= ?k) with (k peak). cbn beta zeta.
  rewrite broadcast_rows_rect.
  2:{ eapply Forall_impl; [exact Hrect|]. intros row Hrow. cbn beta.
      by rewrite length_carrier_ramp. }
  change (Return ?x ≫= ?k) with (k x). cbn beta.
  by rewrite <- list_fmap_compose.
Qed.

Lemma reverter_rect (sfilt : Signal) (A : C) (n : nat) (fs0 : R) :
  modes sfilt ≠ [] →
  Forall (λ row, length row = n) (modes sfilt) →
  let car := carrier (Δf_ramp (fb sfilt) (time_vector n fs0)) in
  reverter_sinal_fase_min
    (mkSignal
       ((λ row : list C, Cplus A <$> zip_with Cmult row car) <$> modes sfilt)
       fs0 (fb sfilt)) A
  = Return (mkSignal (modes sfilt) fs0 (fb sfilt)).
Proof.
  intros Hne Hrect car. unfold reverter_sinal_fase_min. cbn [modes fs fb].
  assert (Hcar : length car = n) by apply length_carrier_ramp.
  destruct (getitem0_fmap
              (λ row : list C, Cplus A <$> zip_with Cmult row car)
              (modes sfilt) Hne) as (row & Hrow0 & ->).
  change (Return ?x ≫= ?k) with (k x). cbn beta zeta.
  assert (Hrow : length row = n).
  { by eapply (Forall_lookup_1 _ _ _ _ Hrect). }
  rewrite length_fmap, length_zip_with, Hcar, Hrow, Nat.min_id.
  fold car. rewrite broadcast_rows_rect.
  2:{ rewrite <- !list_fmap_compose. apply Forall_fmap.
      eapply Forall_impl; [exact Hrect|]. intros r Hr. cbn in Hr |- *.
      rewrite !length_fmap, length_zip_with. lia. }
  change (Return ?x ≫= ?k) with (k x). cbn beta.
  do 2 f_equal. rewrite <- !list_fmap_compose.
  rewrite <- (list_fmap_id (modes sfilt)) at 2.
  apply Forall_fmap_ext_1. eapply Forall_impl; [exact Hrect|].
  intros r Hr. cbn in Hr |- *. apply row_round_trip.
  unfold carrier, Δf_ramp. rewrite !length_fmap. unfold time_vector.
  rewrite length_fmap, length_seqZ. lia.
Qed.

(** C1. Round trip of the minimum-phase transform: on a filtered signal
    [sfilt] whose modes all have the sample count of the noisy signal [s] it
    was filtered from, and which shares its (non-zero) sample rate, the
    forward transform returns a pair [(sfm, A)], the inverse applied to that
    pair returns [sfilt] itself, and the inverse recomputes the very ramp the
    forward transform used, a ramp that starts at time zero. *)
Theorem fase_min_round_trip (s sfilt : Signal) (s0 : list C) :
  modes s !! 0%nat = Some s0 →
  modes sfilt ≠ [] → s0 ≠ [] →
  Forall (λ row, length row = length s0) (modes sfilt) →
  fs s = fs sfilt → fs sfilt ≠ 0 →
  ∃ sfm A m0,
    fase_min s sfilt = Return (sfm, A) ∧
    reverter_sinal_fase_min sfm A = Return sfilt ∧
    modes sfm !! 0%nat = Some m0 ∧
    Δf_ramp (fb sfm) (time_vector (length m0) (fs sfm))
      = Δf_ramp (fb sfilt) (time_vector (length s0) (fs s)) ∧
    time_vector (length m0) (fs sfm) !! 0%nat = Some 0.
Proof.
  intros Hs0 Hne Hs0ne Hrect Hfs Hfs0.
  destruct (fase_min_rect s sfilt s0) as (peak & _ & Hfwd); try done.
  cbn zeta in Hfwd. rewrite Hfwd.
  set (A := Cmult (RtoC peak) (Cexp (Cmult Ci (RtoC (deg2rad 45))))).
  set (car := carrier (Δf_ramp (fb sfilt) (time_vector (length s0) (fs s)))).
  destruct (modes sfilt) as [|row rows] eqn:Hm; [done|].
  pose proof Hrect as Hall. apply Forall_cons in Hall as [Hrow _].
  assert (Hlen : length (Cplus A <$> zip_with Cmult row car) = length s0).
  { subst car. rewrite length_fmap, length_zip_with, length_carrier_ramp. lia. }
  eexists _, A, (Cplus A <$> zip_with Cmult row car).
  split; [done|]. split; [|split; [done|split]].
  - subst car. rewrite Hfs, <- Hm.
    rewrite (reverter_rect sfilt A (length s0) (fs sfilt)).
    + by destruct sfilt.
    + by rewrite Hm.
    + by rewrite Hm.
  - cbn [fs fb]. by rewrite Hlen, Hfs.
  - cbn [fs]. rewrite Hlen, lookup_time_vector.
    + f_equal. cbn. unfold Rdiv. ring.
    + destruct s0; [done|cbn; lia].
Qed.

Lemma fase_min_round_trip_witness :
  ∃ sfm A m0,
    fase_min short_signal short_signal = Return (sfm, A) ∧
    reverter_sinal_fase_min sfm A = Return short_signal ∧
    modes sfm !! 0%nat = Some m0 ∧
    Δf_ramp (fb sfm) (time_vector (length m0) (fs sfm))
      = Δf_ramp (fb short_signal)
                (time_vector (length short_samples) (fs short_signal)) ∧
    time_vector (length m0) (fs sfm) !! 0%nat = Some 0.
Proof.
  apply (fase_min_round_trip short_signal short_signal short_samples).
  - reflexivity.
  - discriminate.
  - discriminate.
  - repeat constructor.
  - reflexivity.
  - cbn. lra.
Defined.

End MinimumPhaseFacts.

Section ForwardContract.
Local Open Scope R_scope.

Variable ResampledQAM :
  ∀ (M N : Z) (fb fs : R) (nmodes : Z) (beta : R), result Signal.
Variable simulate_transmission : ∀ (s : Signal) (snr : R), result Signal.
Variable lowpassFilter :
  ∀ (s : Signal) (fs T beta : R) (taps : Z), result Signal.
Variable normcenter : Signal → result Signal.

(** C2. Forward contract of [sinal_qam_fase_min].  Let the external signal
    chain deliver the noisy signal [s] and a non-empty filtered signal [sfilt]
    with the sample count of [s], carrying the requested symbol rate [Fb] and
    sample rate [Fs = SpS*Fb].  Then the function returns a pair [(sfm, A)]
    such that [A = peak * exp(i*45°)] where [peak] is the largest magnitude
    among the samples of [sfilt]; [A] has magnitude [peak] and, for a non-zero
    peak, phase 45 degrees; and sample [n] of every mode of [sfm] is
    [A + sfilt[n] * exp(i*Δf(t_n))] with [Δf(t) = 2π(Fb/2)t] and
    [t_n = n/Fs]. *)
Theorem sinal_qam_fase_min_contract
    (M : Z) (Fb : R) (SpS : Z) (SNR rolloff : R) (s sfilt : Signal)
    (s0 : list C) :
  signal_chain ResampledQAM simulate_transmission lowpassFilter normcenter
    M Fb SpS SNR rolloff = Return (s, sfilt) →
  fb sfilt = Fb → fs s = IZR SpS * Fb → IZR SpS * Fb ≠ 0 →
  modes s !! 0%nat = Some s0 →
  modes sfilt ≠ [] → s0 ≠ [] →
  Forall (λ row, length row = length s0) (modes sfilt) →
  ∃ sfm A peak,
    sinal_qam_fase_min ResampledQAM simulate_transmission lowpassFilter
      normcenter M Fb SpS SNR rolloff = Return (sfm, A) ∧
    (∃ row z, row ∈ modes sfilt ∧ z ∈ row ∧ Cabs z = peak) ∧
    (∀ row z, row ∈ modes sfilt → z ∈ row → Cabs z <= peak) ∧
    A = Cmult (RtoC peak) (Cexp (Cmult Ci (RtoC (deg2rad 45)))) ∧
    Cabs A = peak ∧
    (0 < peak → Cangle A = deg2rad 45) ∧
    length (modes sfm) = length (modes sfilt) ∧
    ∀ (m : nat) (row : list C), modes sfilt !! m = Some row →
      ∃ row', modes sfm !! m = Some row' ∧ length row' = length row ∧
        ∀ (n : nat) (z : C), row !! n = Some z →
          let t := IZR (Z.of_nat n) / (IZR SpS * Fb) in
          let Δf := 2 * PI * (Fb / 2) * t in
          row' !! n = Some (Cplus A (Cmult z (Cexp (Cmult Ci (RtoC Δf))))).
Proof.
  intros Hchain Hfb Hfs HFs Hs0 Hne Hs0ne Hrect.
  destruct (fase_min_rect s sfilt s0) as (peak & Hpeak & Hfwd); try done.
  cbn zeta in Hfwd.
  set (A := Cmult (RtoC peak) (Cexp (Cmult Ci (RtoC (deg2rad 45))))) in *.
  set (car := carrier (Δf_ramp (fb sfilt) (time_vector (length s0) (fs s))))
    in *.
  apply np_max_spec in Hpeak as [Hin Hub].
  assert (Hpos : 0 <= peak).
  { apply list_elem_of_join in Hin as (l & Hpl & Hl).
    apply list_elem_of_fmap in Hl as (row & -> & _).
    apply list_elem_of_fmap in Hpl as (z & -> & _). apply Cabs_nonneg. }
  eexists _, A, peak. split; [|split; [|split; [|split; [|split;
    [|split; [|split]]]]]].
  - unfold sinal_qam_fase_min. rewrite Hchain. exact Hfwd.
  - apply list_elem_of_join in Hin as (l & Hpl & Hl).
    apply list_elem_of_fmap in Hl as (row & -> & Hrow).
    apply list_elem_of_fmap in Hpl as (z & -> & Hz). by exists row, z.
  - intros row z Hrow Hz. apply Hub, list_elem_of_join.
    exists (Cabs <$> row). split.
    + by apply list_elem_of_fmap_2.
    + by apply (list_elem_of_fmap_2 (λ row : list C, Cabs <$> row)).
  - done.
  - by apply Cabs_rotated.
  - intros Hlt. rewrite deg2rad_45. by apply Cangle_rotated.
  - cbn [modes]. by rewrite length_fmap.
  - intros m row Hrow. cbn [modes]. rewrite list_lookup_fmap, Hrow. cbn.
    assert (Hlen : length row = length s0).
    { by eapply (Forall_lookup_1 _ _ _ _ Hrect). }
    eexists. split; [done|]. split.
    { subst car. rewrite length_fmap, length_zip_with, length_carrier_ramp.
      lia. }
    intros n z Hz. rewrite list_lookup_fmap, lookup_zip_with, Hz. cbn.
    assert (Hn : (n < length s0)%nat).
    { rewrite <- Hlen. by eapply lookup_lt_Some. }
    subst car. unfold carrier, Δf_ramp.
    rewrite !list_lookup_fmap, lookup_time_vector by done. cbn.
    by rewrite Hfb, Hfs.
Qed.

End ForwardContract.

Lemma sinal_qam_fase_min_contract_witness :
  ∃ sfm A peak,
    sinal_qam_fase_min fixed_source no_noise no_filter no_normalisation
      64 2%R 4 40%R (1 / 100)%R = Return (sfm, A) ∧
    Cabs A = peak ∧
    (∀ row z, row ∈ modes short_signal → z ∈ row → (Cabs z <= peak)%R) ∧
    length (modes sfm) = 2%nat.
Proof.
  destruct (sinal_qam_fase_min_contract
              fixed_source no_noise no_filter no_normalisation
              64 2%R 4 40%R (1 / 100)%R short_signal short_signal
              short_samples)
    as (sfm & A & peak & Hret & _ & Hub & _ & Habs & _ & Hlen & _).
  - reflexivity.
  - reflexivity.
  - reflexivity.
  - lra.
  - reflexivity.
  - discriminate.
  - discriminate.
  - repeat constructor.
  - by exists sfm, A, peak.
Defined.

(** ** Amplitude/phase split *)

(** C9. On a signal with a first mode [m0], [abs_and_phases] returns the
    elementwise magnitudes and angles of [m0]: two sequences of the length of
    [m0], every amplitude non-negative and every phase in (-π, π].  The
    function is a pure map of its argument, so the input is left as it was and
    a second call returns the same value. *)
Theorem abs_and_phases_contract (sfm : Signal) (m0 : list C) :
  modes sfm !! 0%nat = Some m0 →
  ∃ data,
    abs_and_phases sfm = Return data ∧
    amplitudes data = Cabs <$> m0 ∧
    phases data = Cangle <$> m0 ∧
    length (amplitudes data) = length m0 ∧
    length (phases data) = length (amplitudes data) ∧
    (∀ (k : nat) (a : R), amplitudes data !! k = Some a → (0 <= a)%R) ∧
    (∀ (k : nat) (p : R), phases data !! k = Some p → (- PI < p <= PI)%R).
Proof.
  intros Hm0. unfold abs_and_phases.
  rewrite (getitem0_lookup _ _ Hm0).
  eexists. split; [reflexivity|]. cbn [amplitudes phases].
  rewrite !length_fmap. do 4 (split; [done|]). split.
  - intros k a (z & -> & _)%list_lookup_fmap_Some. apply Cabs_nonneg.
  - intros k p (z & -> & _)%list_lookup_fmap_Some. apply Cangle_range.
Qed.

Lemma abs_and_phases_contract_witness :
  ∃ data,
    abs_and_phases short_signal = Return data ∧
    amplitudes data = Cabs <$> short_samples ∧
    phases data = Cangle <$> short_samples ∧
    length (amplitudes data) = 3%nat ∧
    length (phases data) = length (amplitudes data) ∧
    (∀ (k : nat) (a : R), amplitudes data !! k = Some a → (0 <= a)%R) ∧
    (∀ (k : nat) (p : R), phases data !! k = Some p → (- PI < p <= PI)%R).
Proof.
  apply (abs_and_phases_contract short_signal short_samples).
  reflexivity.
Defined.

(** ** Slices *)

Section SliceFacts.
Context {A : Type}.
Implicit Types l : list A.

Lemma slice_inside l (i j : Z) :
  0 ≤ i ≤ j → j ≤ Z.of_nat (length l) →
  slice l i j = window l (Z.to_nat i) (Z.to_nat (j - i)).
Proof.
  intros Hij Hj. unfold slice, clamp_index, window.
  rewrite !decide_False by lia. do 2 f_equal; lia.
Qed.

Lemma length_window l (n k : nat) :
  (n + k ≤ length l)%nat → length (window l n k) = k.
Proof. intros H. unfold window. rewrite length_take, length_drop. lia. Qed.

Lemma lookup_window l (n k i : nat) :
  (i < k)%nat → window l n k !! i = l !! (n + i)%nat.
Proof.
  intros H. unfold window. by rewrite lookup_take_lt, lookup_drop.
Qed.

(** A slice that starts inside the array and would end past it keeps what is
    left. *)
Lemma slice_truncated l (i j : Z) :
  0 ≤ i ≤ Z.of_nat (length l) → Z.of_nat (length l) ≤ j →
  slice l i j = drop (Z.to_nat i) l.
Proof.
  intros Hi Hj. unfold slice, clamp_index.
  rewrite !decide_False by lia.
  replace (Z.to_nat (i `min` Z.of_nat (length l))) with (Z.to_nat i) by lia.
  apply take_ge. rewrite length_drop. lia.
Qed.

(** A slice that starts at or past the end is empty. *)
Lemma slice_past l (i j : Z) :
  Z.of_nat (length l) ≤ i → 0 ≤ j → slice l i j = [].
Proof.
  intros Hi Hj. unfold slice, clamp_index.
  rewrite !decide_False by lia.
  replace (Z.to_nat (_ - _)) with O by lia. done.
Qed.

End SliceFacts.

(** ** The window-filling loop *)

Lemma stored_row_length (k : nat) (aux r : list R) :
  stored_row k aux = Some r → length r = k.
Proof.
  unfold stored_row. case_decide as Hlen; [by intros [= <-]|].
  destruct aux as [|a [|b aux]]; try done.
  intros [= <-]. apply length_replicate.
Qed.

Lemma stored_row_full (k : nat) (aux : list R) :
  length aux = k → stored_row k aux = Some aux.
Proof. intros H. unfold stored_row. by rewrite decide_True. Qed.

Lemma stored_row_single (k : nat) (a : R) :
  stored_row k [a] = Some (replicate k a).
Proof.
  unfold stored_row. case_decide as H; [|done].
  cbn in H. by subst k.
Qed.

Lemma stored_row_empty (k : nat) : k ≠ O → stored_row k [] = None.
Proof. intros H. unfold stored_row. by rewrite decide_False. Qed.

Lemma stored_row_short (k : nat) (aux : list R) :
  length aux ≠ k → length aux ≠ 1%nat → stored_row k aux = None.
Proof.
  intros Hk H1. unfold stored_row. rewrite decide_False by done.
  by destruct aux as [|a [|b aux]].
Qed.

Lemma setitem_row_stored (X : list (list R)) (n : Z) (aux old : list R) :
  X !! Z.to_nat n = Some old →
  setitem_row X n aux =
    match stored_row (length old) aux with
    | Some r => Return (<[Z.to_nat n := r]> X)
    | None => Raise ValueError
    end.
Proof.
  intros Hold. unfold setitem_row, stored_row. rewrite Hold.
  case_decide; [done|]. by destruct aux as [|a [|b aux]].
Qed.

Section FillWindows.
Variables (amps : list R) (ordem : Z) (k rows : nat).

(** The row the loop writes at index [n]. *)
Let row_at (n : Z) : option (list R) :=
  stored_row k (slice amps n (ordem + n)).

Lemma fill_windows_returns (ns : list Z) (X : list (list R)) :
  length X = rows →
  Forall (λ r, length r = k) X →
  Forall (λ n, 0 ≤ n < Z.of_nat rows ∧ is_Some (row_at n)) ns →
  ∃ X',
    fill_windows amps ordem ns X = Return X' ∧
    length X' = rows ∧
    Forall (λ r, length r = k) X' ∧
    ∀ i : nat,
      X' !! i = if decide (Z.of_nat i ∈ ns) then row_at (Z.of_nat i)
                else X !! i.
Proof.
  intros HlenX HX Hns. revert X HlenX HX.
  induction Hns as [|n ns [Hn [r Hr]] _ IH]; intros X HlenX HX.
  { exists X. do 3 (split; [done|]). intros i.
    rewrite decide_False; [done|]. apply not_elem_of_nil. }
  destruct (lookup_lt_is_Some_2 X (Z.to_nat n)) as [old Hold]; [lia|].
  assert (Hlen : length old = k) by (by eapply (Forall_lookup_1 _ _ _ _ HX)).
  cbn [fill_windows]. rewrite (setitem_row_stored _ _ _ _ Hold), Hlen.
  fold (row_at n). rewrite Hr.
  change (Return ?x ≫= ?f) with (f x). cbn beta.
  destruct (IH (<[Z.to_nat n := r]> X)) as (X' & -> & HlenX' & Hrect & Hlook).
  { by rewrite length_insert. }
  { apply Forall_insert; [done|]. by eapply stored_row_length. }
  exists X'. do 3 (split; [done|]).
  intros i. rewrite Hlook.
  destruct (decide (Z.of_nat i ∈ ns)) as [Hi|Hi].
  - rewrite decide_True; [done|]. by right.
  - destruct (decide (Z.of_nat i = n)) as [<-|Hne].
    + rewrite decide_True by left. rewrite Nat2Z.id.
      rewrite list_lookup_insert_eq by lia. done.
    + rewrite decide_False by (rewrite elem_of_cons; tauto).
      apply list_lookup_insert_ne. lia.
Qed.

Lemma fill_windows_app (ns1 ns2 : list Z) (X : list (list R)) :
  fill_windows amps ordem (ns1 ++ ns2) X =
    X' ← fill_windows amps ordem ns1 X; fill_windows amps ordem ns2 X'.
Proof.
  revert X. induction ns1 as [|n ns1 IH]; intros X; [done|].
  cbn [app fill_windows]. destruct (setitem_row X n _) as [X1|e]; [|done].
  apply IH.
Qed.

(** The loop stops with [ValueError] at the first index whose window can be
    neither stored nor broadcast. *)
Lemma fill_windows_raises (ns1 ns2 : list Z) (n : Z) (X : list (list R)) :
  length X = rows →
  Forall (λ r, length r = k) X →
  Forall (λ n, 0 ≤ n < Z.of_nat rows ∧ is_Some (row_at n)) ns1 →
  0 ≤ n < Z.of_nat rows → row_at n = None →
  fill_windows amps ordem (ns1 ++ n :: ns2) X = Raise ValueError.
Proof.
  intros HlenX HX Hns1 Hn Hnone. rewrite fill_windows_app.
  destruct (fill_windows_returns ns1 X HlenX HX Hns1)
    as (X' & -> & HlenX' & HX' & _).
  change (Return ?x ≫= ?f) with (f x). cbn beta.
  destruct (lookup_lt_is_Some_2 X' (Z.to_nat n)) as [old Hold]; [lia|].
  assert (Hlen : length old = k) by (by eapply (Forall_lookup_1 _ _ _ _ HX')).
  cbn [fill_windows]. rewrite (setitem_row_stored _ _ _ _ Hold), Hlen.
  fold (row_at n). by rewrite Hnone.
Qed.

End FillWindows.

(** ** Feature rows and returned traces of the builders *)

Lemma size_eq : size = 60000.
Proof. reflexivity. Qed.

Global Opaque size.

Lemma abs_and_phases_inv (sfm : Signal) (d0 : Data) :
  abs_and_phases sfm = Return d0 →
  ∃ m0, modes sfm !! 0%nat = Some m0 ∧
        amplitudes d0 = Cabs <$> m0 ∧ phases d0 = Cangle <$> m0.
Proof.
  unfold abs_and_phases. destruct (modes sfm) as [|m0 rest]; [done|].
  cbn. intros [= <-]. by exists m0.
Qed.

Lemma abs_and_phases_lengths (sfm : Signal) (d0 : Data) :
  abs_and_phases sfm = Return d0 →
  length (phases d0) = length (amplitudes d0).
Proof.
  intros (m0 & _ & -> & ->)%abs_and_phases_inv. by rewrite !length_fmap.
Qed.

(** A trace cut to [size] samples from offset [off] on. *)
Lemma slice_trace {A} (l : list A) (off j : Z) :
  0 ≤ off → j = size + off → j ≤ Z.of_nat (length l) →
  Z.of_nat (length (slice l off j)) = size ∧
  ∀ n : nat, Z.of_nat n < size →
    is_Some (slice l off j !! n) ∧
    slice l off j !! n = l !! Z.to_nat (off + Z.of_nat n).
Proof.
  intros Hoff -> Hj. pose proof size_eq as Hsz.
  rewrite slice_inside by lia. split.
  { rewrite length_window; lia. }
  intros n Hn. rewrite lookup_window by lia.
  replace (Z.to_nat off + n)%nat with (Z.to_nat (off + Z.of_nat n)) by lia.
  split; [|done]. apply lookup_lt_is_Some_2. lia.
Qed.

(** With every window inside the trace the loop stores the windows. *)
Lemma feature_rows_full (amps : list R) (ordem : Z) :
  0 ≤ ordem → size + ordem - 1 ≤ Z.of_nat (length amps) →
  ∃ X,
    np_zeros2 size ordem ≫= fill_windows amps ordem (seqZ 0 size)
      = Return X ∧
    Z.of_nat (length X) = size ∧
    Forall (λ row, Z.of_nat (length row) = ordem) X ∧
    ∀ n : nat, Z.of_nat n < size →
      X !! n = Some (window amps n (Z.to_nat ordem)).
Proof.
  intros Hord Hlen. pose proof size_eq as Hsz.
  unfold np_zeros2. rewrite decide_False by lia.
  change (Return ?x ≫= ?f) with (f x).
  destruct (fill_windows_returns amps ordem (Z.to_nat ordem) (Z.to_nat size)
              (seqZ 0 size)
              (replicate (Z.to_nat size) (replicate (Z.to_nat ordem) 0%R)))
    as (X & HX & HlenX & Hrect & Hlook).
  { apply length_replicate. }
  { apply Forall_replicate, length_replicate. }
  { apply Forall_forall. intros n [Hn0 Hn1]%elem_of_seqZ.
    split; [lia|]. rewrite slice_inside by lia.
    rewrite stored_row_full; [done|]. rewrite length_window; lia. }
  exists X. split; [done|]. split; [lia|]. split.
  { eapply Forall_impl; [exact Hrect|]. intros row Hrow. cbn in Hrow. lia. }
  intros n Hn. rewrite Hlook, decide_True by (apply elem_of_seqZ; lia).
  rewrite slice_inside by lia. rewrite stored_row_full.
  - do 2 f_equal; lia.
  - rewrite length_window; lia.
Qed.

(** Once the traces are split and the feature matrix is filled, each of the
    three flat builders returns the matrix with the traces cut at its
    offset. *)
Lemma dataset_01_returns (sfm : Signal) (ordem : Z) d0 X :
  abs_and_phases sfm = Return d0 →
  np_zeros2 size ordem ≫= fill_windows (amplitudes d0) ordem (seqZ 0 size)
    = Return X →
  dataset_01 sfm ordem =
    Return (mkData (slice (amplitudes d0) (ordem - 1) (size + ordem - 1))
                   (slice (phases d0) (ordem - 1) (size + ordem - 1)),
            X, slice (phases d0) (ordem - 1) (size + ordem - 1)).
Proof.
  intros Hd HX. unfold dataset_01. rewrite Hd.
  change (Return ?x ≫= ?f) with (f x). cbn beta zeta.
  destruct (np_zeros2 size ordem) as [X0|e]; [|done].
  change (Return ?x ≫= ?f) with (f x) in *. cbn beta in *. by rewrite HX.
Qed.

Lemma dataset_02_returns (sfm : Signal) (ordem : Z) d0 X :
  abs_and_phases sfm = Return d0 →
  np_zeros2 size ordem ≫= fill_windows (amplitudes d0) ordem (seqZ 0 size)
    = Return X →
  dataset_02 sfm ordem =
    Return (mkData
              (slice (amplitudes d0) (int_half ordem) (size + int_half ordem))
              (slice (phases d0) (int_half ordem) (size + int_half ordem)),
            X, slice (phases d0) (int_half ordem) (size + int_half ordem)).
Proof.
  intros Hd HX. unfold dataset_02. rewrite Hd.
  change (Return ?x ≫= ?f) with (f x). cbn beta zeta.
  destruct (np_zeros2 size ordem) as [X0|e]; [|done].
  change (Return ?x ≫= ?f) with (f x) in *. cbn beta in *. by rewrite HX.
Qed.

Lemma dataset_03_returns (sfm : Signal) (ordem : Z) d0 X :
  abs_and_phases sfm = Return d0 →
  np_zeros2 size ordem ≫= fill_windows (amplitudes d0) ordem (seqZ 0 size)
    = Return X →
  dataset_03 sfm ordem =
    Return (mkData (slice (amplitudes d0) 0 size) (slice (phases d0) 0 size),
            X, slice (phases d0) 0 size).
Proof.
  intros Hd HX. unfold dataset_03. rewrite Hd.
  change (Return ?x ≫= ?f) with (f x). cbn beta zeta.
  destruct (np_zeros2 size ordem) as [X0|e]; [|done].
  change (Return ?x ≫= ?f) with (f x) in *. cbn beta in *. by rewrite HX.
Qed.

(** Linear arithmetic with floor division by a constant. *)
Ltac div_lia := Z.to_euclidean_division_equations; lia.

Lemma int_half_floor (ordem : Z) : 0 ≤ ordem → int_half ordem = ordem / 2.
Proof. intros H. unfold int_half. apply Z.quot_div_nonneg; lia. Qed.

(** ** Alignment of the three flat variants *)

(** C3. Variant 1 (last sample).  For a window width [ordem ≥ 1] and traces
    with at least [size + ordem - 1] samples, [dataset_01] returns a feature
    matrix of [size = 60000] rows of [ordem] entries and [size] targets; row
    [n] holds the [ordem] consecutive amplitudes from offset [n] on and
    target [n] is the phase at index [ordem - 1 + n].  For [ordem = 4]:
    [X[0] = [a0,a1,a2,a3]], [y[0] = p3] and [y[9] = p12]. *)
Theorem dataset_01_alignment (sfm : Signal) (ordem : Z) (d0 : Data) :
  abs_and_phases sfm = Return d0 →
  1 ≤ ordem →
  size + ordem - 1 ≤ Z.of_nat (length (amplitudes d0)) →
  ∃ data X y,
    dataset_01 sfm ordem = Return (data, X, y) ∧
    Z.of_nat (length X) = 60000 ∧
    Forall (λ row, Z.of_nat (length row) = ordem) X ∧
    Z.of_nat (length y) = 60000 ∧
    (∀ n : nat, Z.of_nat n < 60000 →
       X !! n = Some (window (amplitudes d0) n (Z.to_nat ordem)) ∧
       is_Some (y !! n) ∧
       y !! n = phases d0 !! Z.to_nat (ordem - 1 + Z.of_nat n)) ∧
    (ordem = 4 →
       (∀ a0 a1 a2 a3 rest, amplitudes d0 = a0 :: a1 :: a2 :: a3 :: rest →
          X !! 0%nat = Some [a0; a1; a2; a3]) ∧
       y !! 0%nat = phases d0 !! 3%nat ∧
       y !! 9%nat = phases d0 !! 12%nat).
Proof.
  intros Hd Hord Hlen. pose proof size_eq as Hsz.
  pose proof (abs_and_phases_lengths _ _ Hd) as Hph.
  destruct (feature_rows_full (amplitudes d0) ordem)
    as (X & HX & HlenX & Hrect & Hrows); [lia..|].
  destruct (slice_trace (phases d0) (ordem - 1) (size + ordem - 1))
    as [Hleny Hy]; [lia..|].
  eexists _, X, _. split; [by apply dataset_01_returns|].
  rewrite <- Hsz. do 3 (split; [done|]). split.
  - intros n Hn. split; [by apply Hrows|]. by apply Hy.
  - intros ->. split; [|split].
    + intros a0 a1 a2 a3 rest Ha. rewrite (Hrows 0%nat) by lia. by rewrite Ha.
    + by destruct (Hy 0%nat) as [_ ->]; [lia|].
    + by destruct (Hy 9%nat) as [_ ->]; [lia|].
Qed.

(** C4. Variant 2 (centre sample).  Under the same conditions [dataset_02]
    stores the same windows and takes target [n] from index
    [⌊ordem/2⌋ + n]: the code's [int(ordem/2)] is the floor of the quotient,
    which for odd [ordem] lies strictly below the real half ([2⌊ordem/2⌋ =
    ordem - 1]).  For [ordem = 4], [y[0] = p2]. *)
Theorem dataset_02_alignment (sfm : Signal) (ordem : Z) (d0 : Data) :
  abs_and_phases sfm = Return d0 →
  1 ≤ ordem →
  size + ordem - 1 ≤ Z.of_nat (length (amplitudes d0)) →
  ∃ data X y,
    dataset_02 sfm ordem = Return (data, X, y) ∧
    Z.of_nat (length X) = 60000 ∧
    Forall (λ row, Z.of_nat (length row) = ordem) X ∧
    Z.of_nat (length y) = 60000 ∧
    (∀ n : nat, Z.of_nat n < 60000 →
       X !! n = Some (window (amplitudes d0) n (Z.to_nat ordem)) ∧
       is_Some (y !! n) ∧
       y !! n = phases d0 !! Z.to_nat (ordem / 2 + Z.of_nat n)) ∧
    int_half ordem = ordem / 2 ∧
    (Z.odd ordem = true → 2 * int_half ordem = ordem - 1) ∧
    (Z.even ordem = true → 2 * int_half ordem = ordem) ∧
    (ordem = 4 → y !! 0%nat = phases d0 !! 2%nat).
Proof.
  intros Hd Hord Hlen. pose proof size_eq as Hsz.
  pose proof (abs_and_phases_lengths _ _ Hd) as Hph.
  assert (Hhalf : int_half ordem = ordem / 2) by (apply int_half_floor; lia).
  destruct (feature_rows_full (amplitudes d0) ordem)
    as (X & HX & HlenX & Hrect & Hrows); [lia..|].
  destruct (slice_trace (phases d0) (int_half ordem) (size + int_half ordem))
    as [Hleny Hy]; [div_lia..|].
  eexists _, X, _. split; [by apply dataset_02_returns|].
  rewrite <- Hsz. do 3 (split; [done|]). split; [|split; [done|split; [|split]]].
  - intros n Hn. split; [by apply Hrows|]. rewrite <- Hhalf. by apply Hy.
  - intros Hodd. rewrite Hhalf. rewrite (Z.div_mod ordem 2) at 2 by lia.
    rewrite Zmod_odd, Hodd. lia.
  - intros Heven. rewrite Hhalf. rewrite (Z.div_mod ordem 2) at 2 by lia.
    rewrite Zmod_even, Heven. lia.
  - intros ->. by destruct (Hy 0%nat) as [_ ->]; [lia|].
Qed.

(** C5. Variant 3 (first sample).  Under the same conditions [dataset_03]
    stores the same windows and target [n] is the phase at index [n], the
    start of the window.  For [ordem = 4]: [y[0] = p0] and
    [X[0] = [a0,a1,a2,a3]]. *)
Theorem dataset_03_alignment (sfm : Signal) (ordem : Z) (d0 : Data) :
  abs_and_phases sfm = Return d0 →
  1 ≤ ordem →
  size + ordem - 1 ≤ Z.of_nat (length (amplitudes d0)) →
  ∃ data X y,
    dataset_03 sfm ordem = Return (data, X, y) ∧
    Z.of_nat (length X) = 60000 ∧
    Forall (λ row, Z.of_nat (length row) = ordem) X ∧
    Z.of_nat (length y) = 60000 ∧
    (∀ n : nat, Z.of_nat n < 60000 →
       X !! n = Some (window (amplitudes d0) n (Z.to_nat ordem)) ∧
       is_Some (y !! n) ∧
       y !! n = phases d0 !! n) ∧
    (ordem = 4 →
       (∀ a0 a1 a2 a3 rest, amplitudes d0 = a0 :: a1 :: a2 :: a3 :: rest →
          X !! 0%nat = Some [a0; a1; a2; a3]) ∧
       y !! 0%nat = phases d0 !! 0%nat).
Proof.
  intros Hd Hord Hlen. pose proof size_eq as Hsz.
  pose proof (abs_and_phases_lengths _ _ Hd) as Hph.
  destruct (feature_rows_full (amplitudes d0) ordem)
    as (X & HX & HlenX & Hrect & Hrows); [lia..|].
  destruct (slice_trace (phases d0) 0 size) as [Hleny Hy]; [lia..|].
  eexists _, X, _. split; [by apply dataset_03_returns|].
  rewrite <- Hsz. do 3 (split; [done|]). split.
  - intros n Hn. split; [by apply Hrows|].
    destruct (Hy n Hn) as [Hsome ->]. split; [by rewrite <- (proj2 (Hy n Hn))|].
    f_equal. lia.
  - intros ->. split.
    + intros a0 a1 a2 a3 rest Ha. rewrite (Hrows 0%nat) by lia. by rewrite Ha.
    + by destruct (Hy 0%nat) as [_ ->]; [lia|].
Qed.

(** ** The convolutional variant *)

Lemma chunks_spec {A} (r c : nat) (l : list A) :
  length l = (r * c)%nat →
  length (chunks r c l) = r ∧
  Forall (λ row, length row = c) (chunks r c l) ∧
  concat (chunks r c l) = l.
Proof.
  revert l. induction r as [|r IH]; intros l Hlen; cbn [chunks].
  { destruct l; [done|]. cbn in Hlen. lia. }
  destruct (IH (drop c l)) as (Hrows & Hall & Hcat).
  { rewrite length_drop. lia. }
  split; [cbn; lia|]. split.
  - constructor; [|done]. rewrite length_take. lia.
  - cbn [concat]. rewrite Hcat. apply take_drop.
Qed.

Lemma reshape2_square (l : list R) (ordem : Z) :
  0 ≤ ordem → Z.of_nat (length l) = ordem * ordem →
  reshape2 l ordem ordem = Return (chunks (Z.to_nat ordem) (Z.to_nat ordem) l).
Proof.
  intros Hord Hlen. unfold reshape2.
  rewrite decide_False by lia. by rewrite decide_True.
Qed.

Lemma reshape2_mismatch (l : list R) (ordem : Z) :
  Z.of_nat (length l) ≠ ordem * ordem →
  reshape2 l ordem ordem = Raise ValueError.
Proof.
  intros Hlen. unfold reshape2. case_decide; [done|]. by rewrite decide_False.
Qed.

Lemma flatten_channel (g : list (list R)) :
  concat (concat ((λ row : list R, (λ x : R, [x]) <$> row) <$> g)) = concat g.
Proof.
  induction g as [|row g IH]; [done|].
  cbn [fmap list_fmap concat]. rewrite concat_app. f_equal; [|exact IH].
  clear. induction row as [|x row IH]; [done|]. cbn. by rewrite IH.
Qed.

Lemma lengths_rect {A} (g : list (list A)) (c : nat) :
  Forall (λ row, length row = c) g → length <$> g = replicate (length g) c.
Proof.
  induction 1 as [|row g Hrow _ IH]; [done|]. cbn. by rewrite Hrow, IH.
Qed.

Section FillGrids.
Variables (amps : list R) (ordem : Z) (rows : nat).
Hypothesis ordem_nonneg : 0 ≤ ordem.

Let k : nat := Z.to_nat ordem.
Let grid_at (n : Z) : list (list R) :=
  chunks k k (slice amps n (ordem * ordem + n)).
Let full (n : Z) : Prop :=
  Z.of_nat (length (slice amps n (ordem * ordem + n))) = ordem * ordem.

Lemma grid_at_shape (n : Z) : full n → length <$> grid_at n = replicate k k.
Proof.
  intros Hfull. unfold grid_at.
  destruct (chunks_spec k k (slice amps n (ordem * ordem + n)))
    as (Hr & Hall & _); [unfold full in Hfull; subst k; lia|].
  by rewrite (lengths_rect _ _ Hall), Hr.
Qed.

Lemma fill_grids_returns (ns : list Z) (X : list (list (list R))) :
  length X = rows →
  Forall (λ g, length <$> g = replicate k k) X →
  Forall (λ n, 0 ≤ n < Z.of_nat rows ∧ full n) ns →
  ∃ X',
    fill_grids amps ordem ns X = Return X' ∧
    length X' = rows ∧
    Forall (λ g, length <$> g = replicate k k) X' ∧
    ∀ i : nat,
      X' !! i = if decide (Z.of_nat i ∈ ns) then Some (grid_at (Z.of_nat i))
                else X !! i.
Proof.
  intros HlenX HX Hns. revert X HlenX HX.
  induction Hns as [|n ns [Hn Hfull] _ IH]; intros X HlenX HX.
  { exists X. do 3 (split; [done|]). intros i.
    rewrite decide_False; [done|]. apply not_elem_of_nil. }
  destruct (lookup_lt_is_Some_2 X (Z.to_nat n)) as [old Hold]; [lia|].
  assert (Hshape : length <$> old = replicate k k)
    by (by eapply (Forall_lookup_1 _ _ _ _ HX)).
  cbn [fill_grids]. rewrite reshape2_square by done.
  change (Return ?x ≫= ?f) with (f x). cbn beta.
  fold k. fold (grid_at n). unfold setitem_grid. rewrite Hold.
  rewrite decide_True by (by rewrite Hshape, grid_at_shape).
  change (Return ?x ≫= ?f) with (f x). cbn beta.
  destruct (IH (<[Z.to_nat n := grid_at n]> X))
    as (X' & -> & HlenX' & Hrect & Hlook).
  { by rewrite length_insert. }
  { apply Forall_insert; [done|]. by apply grid_at_shape. }
  exists X'. do 3 (split; [done|]).
  intros i. rewrite Hlook.
  destruct (decide (Z.of_nat i ∈ ns)) as [Hi|Hi].
  - rewrite decide_True; [done|]. by right.
  - destruct (decide (Z.of_nat i = n)) as [<-|Hne].
    + rewrite decide_True by left. rewrite Nat2Z.id.
      rewrite list_lookup_insert_eq by lia. done.
    + rewrite decide_False by (rewrite elem_of_cons; tauto).
      apply list_lookup_insert_ne. lia.
Qed.

Lemma fill_grids_app (ns1 ns2 : list Z) (X : list (list (list R))) :
  fill_grids amps ordem (ns1 ++ ns2) X =
    X' ← fill_grids amps ordem ns1 X; fill_grids amps ordem ns2 X'.
Proof.
  revert X. induction ns1 as [|n ns1 IH]; intros X; [done|].
  cbn [app fill_grids].
  destruct (reshape2 _ ordem ordem) as [g|e]; [|done].
  change (Return ?x ≫= ?f) with (f x). cbn beta.
  destruct (setitem_grid X n g) as [X1|e]; [|done].
  apply IH.
Qed.

(** The loop stops with [ValueError] at the first window that cannot be
    reshaped. *)
Lemma fill_grids_raises (ns1 ns2 : list Z) (n : Z) (X : list (list (list R))) :
  length X = rows →
  Forall (λ g, length <$> g = replicate k k) X →
  Forall (λ n, 0 ≤ n < Z.of_nat rows ∧ full n) ns1 →
  ¬ full n →
  fill_grids amps ordem (ns1 ++ n :: ns2) X = Raise ValueError.
Proof.
  intros HlenX HX Hns1 Hn. rewrite fill_grids_app.
  destruct (fill_grids_returns ns1 X HlenX HX Hns1) as (X' & -> & _).
  change (Return ?x ≫= ?f) with (f x). cbn beta.
  cbn [fill_grids]. by rewrite reshape2_mismatch.
Qed.

End FillGrids.

Lemma feature_grids_full (amps : list R) (ordem : Z) :
  0 ≤ ordem → size + ordem * ordem - 1 ≤ Z.of_nat (length amps) →
  ∃ X,
    np_zeros3 size ordem ordem ≫= fill_grids amps ordem (seqZ 0 size)
      = Return X ∧
    Z.of_nat (length X) = size ∧
    ∀ n : nat, Z.of_nat n < size →
      X !! n = Some (chunks (Z.to_nat ordem) (Z.to_nat ordem)
                       (window amps n (Z.to_nat (ordem * ordem)))).
Proof.
  intros Hord Hlen. pose proof size_eq as Hsz.
  unfold np_zeros3. rewrite decide_False by lia.
  change (Return ?x ≫= ?f) with (f x).
  assert (Hfull : ∀ n, 0 ≤ n < size →
    slice amps n (ordem * ordem + n)
      = window amps (Z.to_nat n) (Z.to_nat (ordem * ordem))).
  { intros n Hn. rewrite slice_inside by nia. do 2 f_equal; lia. }
  destruct (fill_grids_returns amps ordem (Z.to_nat size) Hord (seqZ 0 size)
              (replicate (Z.to_nat size)
                 (replicate (Z.to_nat ordem) (replicate (Z.to_nat ordem) 0%R))))
    as (X & HX & HlenX & _ & Hlook).
  { apply length_replicate. }
  { apply Forall_replicate. rewrite fmap_replicate.
    by rewrite !length_replicate. }
  { apply Forall_forall. intros n [Hn0 Hn1]%elem_of_seqZ.
    split; [lia|]. rewrite Hfull by lia. rewrite length_window; nia. }
  exists X. split; [done|]. split; [lia|].
  intros n Hn. rewrite Hlook, decide_True by (apply elem_of_seqZ; lia).
  rewrite Hfull by lia. by rewrite Nat2Z.id.
Qed.

Lemma dataset_02_CNN_returns (sfm : Signal) (ordem : Z) d0 X :
  abs_and_phases sfm = Return d0 →
  np_zeros3 size ordem ordem
    ≫= fill_grids (amplitudes d0) ordem (seqZ 0 size) = Return X →
  dataset_02_CNN sfm ordem =
    Return (mkData (slice (amplitudes d0) 0 size) (slice (phases d0) 0 size),
            add_channel_axis X, slice (phases d0) 0 size).
Proof.
  intros Hd HX. unfold dataset_02_CNN. rewrite Hd.
  change (Return ?x ≫= ?f) with (f x). cbn beta zeta.
  destruct (np_zeros3 size ordem ordem) as [X0|e]; [|done].
  change (Return ?x ≫= ?f) with (f x) in *. cbn beta in *. by rewrite HX.
Qed.

(** C6. The convolutional variant.  For [ordem ≥ 1] and traces with at least
    [size + ordem² - 1] samples, [dataset_02_CNN] returns a feature array of
    shape [(60000, ordem, ordem, 1)] and [60000] targets; the row-major
    flattening of [X[n]] is the run of [ordem²] consecutive amplitudes from
    offset [n] on, and target [n] is the phase at index [n].  For [ordem = 3],
    [X[0]] is the 3×3 grid of the first nine amplitudes, each in a cell of its
    own. *)
Theorem dataset_02_CNN_reshape (sfm : Signal) (ordem : Z) (d0 : Data) :
  abs_and_phases sfm = Return d0 →
  1 ≤ ordem →
  size + ordem * ordem - 1 ≤ Z.of_nat (length (amplitudes d0)) →
  ∃ data X y,
    dataset_02_CNN sfm ordem = Return (data, X, y) ∧
    shape4 X 60000 ordem ordem 1 ∧
    Z.of_nat (length y) = 60000 ∧
    (∀ n : nat, Z.of_nat n < 60000 →
       (∃ grid, X !! n = Some grid ∧
          concat (concat grid)
            = window (amplitudes d0) n (Z.to_nat (ordem * ordem))) ∧
       is_Some (y !! n) ∧
       y !! n = phases d0 !! n) ∧
    (ordem = 3 →
       ∀ a0 a1 a2 a3 a4 a5 a6 a7 a8 rest,
         amplitudes d0 = a0 :: a1 :: a2 :: a3 :: a4 :: a5 :: a6 :: a7 :: a8
                         :: rest →
         X !! 0%nat = Some [ [[a0]; [a1]; [a2]];
                             [[a3]; [a4]; [a5]];
                             [[a6]; [a7]; [a8]] ]).
Proof.
  intros Hd Hord Hlen. pose proof size_eq as Hsz.
  pose proof (abs_and_phases_lengths _ _ Hd) as Hph.
  destruct (feature_grids_full (amplitudes d0) ordem)
    as (X & HX & HlenX & Hrows); [lia..|].
  destruct (slice_trace (phases d0) 0 size) as [Hleny Hy]; [nia..|].
  assert (Hwin : ∀ n : nat, Z.of_nat n < size →
    length (window (amplitudes d0) n (Z.to_nat (ordem * ordem)))
      = (Z.to_nat ordem * Z.to_nat ordem)%nat).
  { intros n Hn. rewrite length_window; nia. }
  eexists _, (add_channel_axis X), _.
  split; [by apply dataset_02_CNN_returns|].
  rewrite <- Hsz. split; [|split; [done|split]].
  - split; [unfold add_channel_axis; by rewrite length_fmap|].
    apply Forall_lookup. intros i grid Hgrid.
    unfold add_channel_axis in Hgrid.
    apply list_lookup_fmap_Some in Hgrid as (g & -> & Hg).
    assert (Hi : Z.of_nat i < size).
    { apply lookup_lt_Some in Hg. lia. }
    rewrite (Hrows i Hi) in Hg. injection Hg as <-.
    destruct (chunks_spec _ _ _ (Hwin i Hi)) as (Hr & Hall & _).
    rewrite length_fmap, Hr. split; [lia|].
    apply Forall_fmap. eapply Forall_impl; [exact Hall|].
    intros row Hrow. cbn in Hrow |- *. rewrite length_fmap. split; [lia|].
    apply Forall_fmap. by apply Forall_true.
  - intros n Hn. split.
    + eexists. unfold add_channel_axis.
      rewrite list_lookup_fmap, (Hrows n Hn). split; [done|].
      rewrite flatten_channel.
      by destruct (chunks_spec _ _ _ (Hwin n Hn)) as (_ & _ & ->).
    + destruct (Hy n Hn) as [Hsome Heq]. split; [done|].
      rewrite Heq. f_equal. lia.
  - intros -> a0 a1 a2 a3 a4 a5 a6 a7 a8 rest Ha.
    unfold add_channel_axis. rewrite list_lookup_fmap, (Hrows 0%nat) by lia.
    by rewrite Ha.
Qed.

(** ** Returned traces *)

(** C7. Every builder returns the amplitude/phase pair cut at the offset of
    its targets: for window width [ordem ≥ 1] and traces long enough for the
    variant, the returned phases are the target vector itself, and for every
    row [n] below 60000 the returned amplitude [n] and the target [n] are the
    amplitude and the phase at index [target_offset + n] of the full traces
    ([ordem - 1] for variant 1, [⌊ordem/2⌋] for variant 2, [0] for variant 3
    and the convolutional variant). *)
Theorem returned_traces_aligned
    (v : variant) (sfm : Signal) (ordem : Z) (d0 : Data) :
  abs_and_phases sfm = Return d0 →
  1 ≤ ordem →
  size + window_width v ordem - 1 ≤ Z.of_nat (length (amplitudes d0)) →
  ∃ data y,
    builder_traces v sfm ordem = Return (data, y) ∧
    phases data = y ∧
    ∀ n : nat, Z.of_nat n < 60000 →
      let i := Z.to_nat (target_offset v ordem + Z.of_nat n) in
      is_Some (y !! n) ∧
      is_Some (amplitudes data !! n) ∧
      phases data !! n = y !! n ∧
      y !! n = phases d0 !! i ∧
      amplitudes data !! n = amplitudes d0 !! i.
Proof.
  intros Hd Hord Hlen. pose proof size_eq as Hsz.
  pose proof (abs_and_phases_lengths _ _ Hd) as Hph.
  assert (Hhalf : int_half ordem = ordem / 2) by (apply int_half_floor; lia).
  assert (Hcut : ∀ off j, 0 ≤ off → j = size + off →
    j ≤ Z.of_nat (length (amplitudes d0)) →
    ∀ n : nat, Z.of_nat n < 60000 →
      let i := Z.to_nat (off + Z.of_nat n) in
      is_Some (slice (phases d0) off j !! n) ∧
      is_Some (slice (amplitudes d0) off j !! n) ∧
      slice (phases d0) off j !! n = slice (phases d0) off j !! n ∧
      slice (phases d0) off j !! n = phases d0 !! i ∧
      slice (amplitudes d0) off j !! n = amplitudes d0 !! i).
  { intros off j Hoff Hj Hjlen n Hn.
    destruct (slice_trace (phases d0) off j) as [_ Hp]; [lia..|].
    destruct (slice_trace (amplitudes d0) off j) as [_ Ha]; [lia..|].
    destruct (Hp n) as [? ?]; [lia|]. destruct (Ha n) as [? ?]; [lia|].
    done. }
  destruct v; cbn [window_width target_offset builder_traces] in *.
  - destruct (feature_rows_full (amplitudes d0) ordem)
      as (X & HX & _); [lia..|].
    rewrite (dataset_01_returns _ _ _ _ Hd HX).
    eexists _, _. split; [reflexivity|]. split; [done|].
    cbn [amplitudes phases]. apply Hcut; lia.
  - destruct (feature_rows_full (amplitudes d0) ordem)
      as (X & HX & _); [lia..|].
    rewrite (dataset_02_returns _ _ _ _ Hd HX).
    eexists _, _. split; [reflexivity|]. split; [done|].
    cbn [amplitudes phases]. rewrite Hhalf. apply Hcut; div_lia.
  - destruct (feature_rows_full (amplitudes d0) ordem)
      as (X & HX & _); [lia..|].
    rewrite (dataset_03_returns _ _ _ _ Hd HX).
    eexists _, _. split; [reflexivity|]. split; [done|].
    cbn [amplitudes phases]. apply Hcut; lia.
  - destruct (feature_grids_full (amplitudes d0) ordem)
      as (X & HX & _); [lia..|].
    rewrite (dataset_02_CNN_returns _ _ _ _ Hd HX).
    eexists _, _. split; [reflexivity|]. split; [done|].
    cbn [amplitudes phases]. apply Hcut; nia.
Qed.

(** ** Windows that run past the end of the trace *)

Lemma length_slice_nonneg {A} (l : list A) (i j : Z) :
  0 ≤ i → 0 ≤ j →
  Z.of_nat (length (slice l i j))
    = Z.max 0 (Z.min j (Z.of_nat (length l)) - Z.min i (Z.of_nat (length l))).
Proof.
  intros Hi Hj. unfold slice, clamp_index. rewrite !decide_False by lia.
  rewrite length_take, length_drop. lia.
Qed.

Lemma stored_row_is_Some (k : nat) (aux : list R) :
  is_Some (stored_row k aux) ↔ length aux = k ∨ length aux = 1%nat.
Proof.
  split.
  - intros [r Hr]. destruct (decide (length aux = k)); [by left|].
    destruct (decide (length aux = 1%nat)); [by right|].
    by rewrite stored_row_short in Hr.
  - intros [H|H].
    + by rewrite stored_row_full.
    + destruct aux as [|a [|b aux]]; try done. by rewrite stored_row_single.
Qed.

Lemma stored_row_None (k : nat) (aux : list R) :
  stored_row k aux = None ↔ length aux ≠ k ∧ length aux ≠ 1%nat.
Proof.
  rewrite eq_None_not_Some, stored_row_is_Some. tauto.
Qed.

Lemma seqZ_split_at (len n : Z) :
  0 ≤ n < len →
  seqZ 0 len = seqZ 0 n ++ n :: seqZ (Z.succ n) (Z.pred (len - n)).
Proof.
  intros Hn. replace len with (n + (len - n)) at 1 by lia.
  rewrite seqZ_app by lia. f_equal. by rewrite seqZ_cons by lia.
Qed.

(** The loop of the flat builders raises as soon as some row index [n] below
    [size] has a window that fits neither way, all earlier ones fitting. *)
Lemma feature_rows_raise (amps : list R) (ordem n : Z) :
  0 ≤ ordem → 0 ≤ n < size →
  (∀ m, 0 ≤ m < n →
     is_Some (stored_row (Z.to_nat ordem) (slice amps m (ordem + m)))) →
  stored_row (Z.to_nat ordem) (slice amps n (ordem + n)) = None →
  np_zeros2 size ordem ≫= fill_windows amps ordem (seqZ 0 size)
    = Raise ValueError.
Proof.
  intros Hord Hn Hbefore Hnone. pose proof size_eq as Hsz.
  unfold np_zeros2. rewrite decide_False by lia.
  change (Return ?x ≫= ?f) with (f x).
  rewrite (seqZ_split_at size n) by lia.
  apply (fill_windows_raises amps ordem (Z.to_nat ordem) (Z.to_nat size)).
  - apply length_replicate.
  - apply Forall_replicate, length_replicate.
  - apply Forall_seqZ. intros m Hm. split; [lia|]. apply Hbefore. lia.
  - lia.
  - done.
Qed.

Lemma feature_grids_raise (amps : list R) (ordem n : Z) :
  0 ≤ ordem → 0 ≤ n < size →
  (∀ m, 0 ≤ m < n →
     Z.of_nat (length (slice amps m (ordem * ordem + m))) = ordem * ordem) →
  Z.of_nat (length (slice amps n (ordem * ordem + n))) ≠ ordem * ordem →
  np_zeros3 size ordem ordem ≫= fill_grids amps ordem (seqZ 0 size)
    = Raise ValueError.
Proof.
  intros Hord Hn Hbefore Hnone. pose proof size_eq as Hsz.
  unfold np_zeros3. rewrite decide_False by lia.
  change (Return ?x ≫= ?f) with (f x).
  rewrite (seqZ_split_at size n) by lia.
  apply (fill_grids_raises amps ordem (Z.to_nat size) Hord).
  - apply length_replicate.
  - apply Forall_replicate. rewrite fmap_replicate.
    by rewrite !length_replicate.
  - apply Forall_seqZ. intros m Hm. split; [lia|]. apply Hbefore. lia.
  - done.
Qed.

(** An exception of the loop is the exception of the builder. *)
Lemma flat_builders_raise (sfm : Signal) (ordem : Z) d0 e :
  abs_and_phases sfm = Return d0 →
  np_zeros2 size ordem ≫= fill_windows (amplitudes d0) ordem (seqZ 0 size)
    = Raise e →
  dataset_01 sfm ordem = Raise e ∧
  dataset_02 sfm ordem = Raise e ∧
  dataset_03 sfm ordem = Raise e.
Proof.
  intros Hd HX. unfold dataset_01, dataset_02, dataset_03. rewrite Hd.
  change (Return ?x ≫= ?f) with (f x). cbn beta zeta.
  destruct (np_zeros2 size ordem) as [X0|e']; cbn in HX |- *.
  - by rewrite HX.
  - by injection HX as ->.
Qed.

Lemma dataset_02_CNN_raise (sfm : Signal) (ordem : Z) d0 e :
  abs_and_phases sfm = Return d0 →
  np_zeros3 size ordem ordem
    ≫= fill_grids (amplitudes d0) ordem (seqZ 0 size) = Raise e →
  dataset_02_CNN sfm ordem = Raise e.
Proof.
  intros Hd HX. unfold dataset_02_CNN. rewrite Hd.
  change (Return ?x ≫= ?f) with (f x). cbn beta zeta.
  destruct (np_zeros3 size ordem ordem) as [X0|e']; cbn in HX |- *.
  - by rewrite HX.
  - by injection HX as ->.
Qed.

(** Whenever every window fits one way or the other the loop returns the
    matrix of the stored rows. *)
Lemma feature_rows_stored (amps : list R) (ordem : Z) :
  0 ≤ ordem →
  (∀ n, 0 ≤ n < size →
     is_Some (stored_row (Z.to_nat ordem) (slice amps n (ordem + n)))) →
  ∃ X,
    np_zeros2 size ordem ≫= fill_windows amps ordem (seqZ 0 size)
      = Return X ∧
    Z.of_nat (length X) = size ∧
    ∀ n : Z, 0 ≤ n < size →
      X !! Z.to_nat n = stored_row (Z.to_nat ordem) (slice amps n (ordem + n)).
Proof.
  intros Hord Hall. pose proof size_eq as Hsz.
  unfold np_zeros2. rewrite decide_False by lia.
  change (Return ?x ≫= ?f) with (f x).
  destruct (fill_windows_returns amps ordem (Z.to_nat ordem) (Z.to_nat size)
              (seqZ 0 size)
              (replicate (Z.to_nat size) (replicate (Z.to_nat ordem) 0%R)))
    as (X & HX & HlenX & _ & Hlook).
  { apply length_replicate. }
  { apply Forall_replicate, length_replicate. }
  { apply Forall_seqZ. intros n Hn. split; [lia|]. apply Hall. lia. }
  exists X. split; [done|]. split; [lia|].
  intros n Hn. rewrite Hlook, Z2Nat.id by lia.
  by rewrite decide_True by (apply elem_of_seqZ; lia).
Qed.

(** Window width two on traces of exactly [size] samples: the last window
    has one sample left, which is broadcast. *)
Lemma order_two_on_size_samples (sfm : Signal) (d0 : Data) :
  abs_and_phases sfm = Return d0 →
  Z.of_nat (length (amplitudes d0)) = size →
  ∃ data X y last,
    dataset_01 sfm 2 = Return (data, X, y) ∧
    amplitudes d0 !! Z.to_nat 59999 = Some last ∧
    slice (amplitudes d0) 59999 (2 + 59999) = [last] ∧
    X !! Z.to_nat 59999 = Some [last; last] ∧
    Z.of_nat (length X) = 60000 ∧
    y = slice (phases d0) 1 60001 ∧
    Z.of_nat (length y) = 59999.
Proof.
  intros Hd Hlen. pose proof size_eq as Hsz.
  pose proof (abs_and_phases_lengths _ _ Hd) as Hph.
  assert (Hlenf : ∀ m, 0 ≤ m →
    Z.of_nat (length (slice (amplitudes d0) m (2 + m)))
      = Z.max 0 (Z.min (2 + m) size - Z.min m size)).
  { intros m Hm. rewrite length_slice_nonneg by lia. by rewrite Hlen. }
  destruct (feature_rows_stored (amplitudes d0) 2) as (X & HX & HlenX & Hrows).
  { lia. }
  { intros n Hn. apply stored_row_is_Some. pose proof (Hlenf n). lia. }
  destruct (lookup_lt_is_Some_2 (amplitudes d0) (Z.to_nat 59999))
    as [last Hlast]; [lia|].
  assert (Hwin : slice (amplitudes d0) 59999 (2 + 59999) = [last]).
  { rewrite slice_truncated by lia.
    rewrite (drop_S _ _ _ Hlast), drop_ge; [done|lia]. }
  exists (mkData (slice (amplitudes d0) (2 - 1) (size + 2 - 1))
                 (slice (phases d0) (2 - 1) (size + 2 - 1))),
    X, (slice (phases d0) (2 - 1) (size + 2 - 1)), last.
  split; [by apply dataset_01_returns|].
  do 2 (split; [done|]). split.
  { rewrite Hrows by lia. rewrite Hwin. by rewrite stored_row_single. }
  split; [lia|]. rewrite Hsz. split; [done|].
  rewrite length_slice_nonneg by lia. lia.
Qed.

(** C10. Insufficient input does not always raise.  With window width 2 and
    traces of exactly 60000 samples [dataset_01] returns: the last window
    [amplitudes[59999:60001]] holds the single sample left, row 59999 of [X]
    repeats it twice, and [y = phases[1:60001]] has 59999 entries although
    [X] has 60000 rows. *)
Theorem dataset_01_short_input_returns (sfm : Signal) (d0 : Data) :
  abs_and_phases sfm = Return d0 →
  Z.of_nat (length (amplitudes d0)) = 60000 →
  ∃ data X y last,
    dataset_01 sfm 2 = Return (data, X, y) ∧
    amplitudes d0 !! Z.to_nat 59999 = Some last ∧
    slice (amplitudes d0) 59999 60001 = [last] ∧
    X !! Z.to_nat 59999 = Some [last; last] ∧
    Z.of_nat (length X) = 60000 ∧
    y = slice (phases d0) 1 60001 ∧
    Z.of_nat (length y) = 59999.
Proof.
  intros Hd Hlen. apply order_two_on_size_samples; [done|].
  by rewrite size_eq.
Qed.

(** ** Bounds *)

(** C8, as the code has it.  The builders check nothing themselves; what
    raises is NumPy, with [ValueError], at the first window that is cut short.
    For [ordem ≥ 1] and traces of [len] samples: the three flat builders
    raise when [len < size + ordem - 1], except for [ordem = 2] on
    [len = size] samples, where the one short window has a single sample and
    is broadcast; the convolutional builder raises when
    [len < size + ordem² - 1]; and from [len = size + ordem - 1]
    (respectively [size + ordem² - 1]) on, every window is complete and
    the builders return. *)
Theorem truncated_windows_raise (sfm : Signal) (ordem : Z) (d0 : Data) :
  abs_and_phases sfm = Return d0 →
  1 ≤ ordem →
  let len := Z.of_nat (length (amplitudes d0)) in
  (len < size + ordem - 1 → ¬ (ordem = 2 ∧ len = size) →
     dataset_01 sfm ordem = Raise ValueError ∧
     dataset_02 sfm ordem = Raise ValueError ∧
     dataset_03 sfm ordem = Raise ValueError) ∧
  (len < size + ordem * ordem - 1 →
     dataset_02_CNN sfm ordem = Raise ValueError) ∧
  (size + ordem - 1 ≤ len →
     returns (dataset_01 sfm ordem) ∧
     returns (dataset_02 sfm ordem) ∧
     returns (dataset_03 sfm ordem)) ∧
  (size + ordem * ordem - 1 ≤ len → returns (dataset_02_CNN sfm ordem)).
Proof.
  intros Hd Hord len. pose proof size_eq as Hsz.
  split; [|split; [|split]].
  - intros Hshort Hexc. apply (flat_builders_raise _ _ d0); [done|].
    assert (Hlenf : ∀ m, 0 ≤ m →
      Z.of_nat (length (slice (amplitudes d0) m (ordem + m)))
        = Z.max 0 (Z.min (ordem + m) len - Z.min m len)).
    { intros m Hm. by rewrite length_slice_nonneg by lia. }
    destruct (decide (ordem ≤ len)) as [HL|HL].
    + destruct (decide (ordem = 2)) as [->|Hne].
      * apply (feature_rows_raise _ _ len); [lia|lia| |].
        -- intros m Hm. apply stored_row_is_Some. pose proof (Hlenf m). lia.
        -- apply stored_row_None. pose proof (Hlenf len). lia.
      * apply (feature_rows_raise _ _ (len - ordem + 1)); [lia|lia| |].
        -- intros m Hm. apply stored_row_is_Some. pose proof (Hlenf m). lia.
        -- apply stored_row_None. pose proof (Hlenf (len - ordem + 1)). lia.
    + destruct (decide (len = 1)) as [H1|H1].
      * apply (feature_rows_raise _ _ 1); [lia|lia| |].
        -- intros m Hm. apply stored_row_is_Some. pose proof (Hlenf m). lia.
        -- apply stored_row_None. pose proof (Hlenf 1). lia.
      * apply (feature_rows_raise _ _ 0); [lia|lia| |].
        -- intros m Hm. lia.
        -- apply stored_row_None. pose proof (Hlenf 0). lia.
  - intros Hshort. apply (dataset_02_CNN_raise _ _ d0); [done|].
    assert (Hw : 1 ≤ ordem * ordem) by nia.
    remember (ordem * ordem) as w eqn:Hweq.
    assert (Hlenf : ∀ m, 0 ≤ m →
      Z.of_nat (length (slice (amplitudes d0) m (ordem * ordem + m)))
        = Z.max 0 (Z.min (w + m) len - Z.min m len)).
    { intros m Hm. rewrite <- Hweq. by rewrite length_slice_nonneg by lia. }
    destruct (decide (w ≤ len)) as [HL|HL].
    + apply (feature_grids_raise _ _ (len - w + 1)); [lia|lia| |].
      * intros m Hm. rewrite (Hlenf m), <- Hweq by lia. lia.
      * rewrite (Hlenf (len - w + 1)), <- Hweq by lia. lia.
    + apply (feature_grids_raise _ _ 0); [lia|lia| |].
      * intros m Hm. lia.
      * rewrite (Hlenf 0), <- Hweq by lia. lia.
  - intros Hlong.
    destruct (feature_rows_full (amplitudes d0) ordem) as (X & HX & _);
      [lia..|].
    split; [|split]; eexists.
    + by apply dataset_01_returns.
    + by apply dataset_02_returns.
    + by apply dataset_03_returns.
  - intros Hlong.
    destruct (feature_grids_full (amplitudes d0) ordem) as (X & HX & _);
      [lia..|].
    eexists. by apply dataset_02_CNN_returns.
Qed.

(** ** The builders on ramp signals *)

Lemma abs_and_phases_ramp (n : Z) :
  abs_and_phases (ramp_signal n) = Return (ramp_data n).
Proof. reflexivity. Qed.

Lemma length_ramp_amplitudes (n : Z) :
  0 ≤ n → Z.of_nat (length (amplitudes (ramp_data n))) = n.
Proof.
  intros Hn. cbn [amplitudes ramp_data]. unfold ramp_samples.
  rewrite !length_fmap, length_seqZ. lia.
Qed.

Lemma dataset_01_alignment_witness :
  ∃ data X y,
    dataset_01 (ramp_signal 60003) 4 = Return (data, X, y) ∧
    Z.of_nat (length X) = 60000 ∧
    Z.of_nat (length y) = 60000 ∧
    y !! 0%nat = phases (ramp_data 60003) !! 3%nat ∧
    y !! 9%nat = phases (ramp_data 60003) !! 12%nat.
Proof.
  destruct (dataset_01_alignment (ramp_signal 60003) 4 (ramp_data 60003))
    as (data & X & y & Hret & HX & _ & Hy & _ & H4).
  - apply abs_and_phases_ramp.
  - lia.
  - rewrite length_ramp_amplitudes, size_eq; lia.
  - destruct (H4 eq_refl) as (_ & Hy0 & Hy9). exists data, X, y.
    exact (conj Hret (conj HX (conj Hy (conj Hy0 Hy9)))).
Defined.

Lemma dataset_02_alignment_witness :
  ∃ data X y,
    dataset_02 (ramp_signal 60003) 4 = Return (data, X, y) ∧
    Z.of_nat (length X) = 60000 ∧
    Z.of_nat (length y) = 60000 ∧
    y !! 0%nat = phases (ramp_data 60003) !! 2%nat.
Proof.
  destruct (dataset_02_alignment (ramp_signal 60003) 4 (ramp_data 60003))
    as (data & X & y & Hret & HX & _ & Hy & _ & _ & _ & _ & H4).
  - apply abs_and_phases_ramp.
  - lia.
  - rewrite length_ramp_amplitudes, size_eq; lia.
  - specialize (H4 eq_refl). exists data, X, y.
    exact (conj Hret (conj HX (conj Hy H4))).
Defined.

Lemma dataset_03_alignment_witness :
  ∃ data X y,
    dataset_03 (ramp_signal 60003) 4 = Return (data, X, y) ∧
    Z.of_nat (length X) = 60000 ∧
    Z.of_nat (length y) = 60000 ∧
    y !! 0%nat = phases (ramp_data 60003) !! 0%nat.
Proof.
  destruct (dataset_03_alignment (ramp_signal 60003) 4 (ramp_data 60003))
    as (data & X & y & Hret & HX & _ & Hy & _ & H4).
  - apply abs_and_phases_ramp.
  - lia.
  - rewrite length_ramp_amplitudes, size_eq; lia.
  - destruct (H4 eq_refl) as (_ & Hy0). exists data, X, y.
    exact (conj Hret (conj HX (conj Hy Hy0))).
Defined.

Lemma dataset_02_CNN_reshape_witness :
  ∃ data X y,
    dataset_02_CNN (ramp_signal 60008) 3 = Return (data, X, y) ∧
    shape4 X 60000 3 3 1 ∧
    Z.of_nat (length y) = 60000.
Proof.
  destruct (dataset_02_CNN_reshape (ramp_signal 60008) 3 (ramp_data 60008))
    as (data & X & y & Hret & HX & Hy & _).
  - apply abs_and_phases_ramp.
  - lia.
  - rewrite length_ramp_amplitudes, size_eq; lia.
  - exists data, X, y. exact (conj Hret (conj HX Hy)).
Defined.

Lemma returned_traces_aligned_witness :
  ∃ data y,
    builder_traces Center (ramp_signal 60004) 5 = Return (data, y) ∧
    phases data = y ∧
    y !! 0%nat = phases (ramp_data 60004) !! 2%nat ∧
    amplitudes data !! 0%nat = amplitudes (ramp_data 60004) !! 2%nat.
Proof.
  destruct (returned_traces_aligned Center (ramp_signal 60004) 5
              (ramp_data 60004)) as (data & y & Hret & Hph & Hrows).
  - apply abs_and_phases_ramp.
  - lia.
  - rewrite length_ramp_amplitudes, size_eq; cbn [window_width]; lia.
  - destruct (Hrows 0%nat) as (_ & _ & _ & Hy & Ha); [lia|].
    exists data, y. exact (conj Hret (conj Hph (conj Hy Ha))).
Defined.

Lemma dataset_01_short_input_returns_witness :
  ∃ data X y last,
    dataset_01 (ramp_signal 60000) 2 = Return (data, X, y) ∧
    X !! Z.to_nat 59999 = Some [last; last] ∧
    Z.of_nat (length X) = 60000 ∧
    Z.of_nat (length y) = 59999.
Proof.
  destruct (dataset_01_short_input_returns (ramp_signal 60000)
              (ramp_data 60000))
    as (data & X & y & last & Hret & _ & _ & Hrow & HX & _ & Hy).
  - apply abs_and_phases_ramp.
  - rewrite length_ramp_amplitudes; lia.
  - exists data, X, y, last. exact (conj Hret (conj Hrow (conj HX Hy))).
Defined.

Lemma truncated_windows_raise_witness :
  dataset_01 (ramp_signal 60002) 4 = Raise ValueError ∧
  dataset_02_CNN (ramp_signal 60002) 4 = Raise ValueError.
Proof.
  pose proof (length_ramp_amplitudes 60002 ltac:(lia)) as Hlen.
  pose proof size_eq as Hsz.
  destruct (truncated_windows_raise (ramp_signal 60002) 4 (ramp_data 60002))
    as (Hflat & Hcnn & _).
  - apply abs_and_phases_ramp.
  - lia.
  - destruct Hflat as (H01 & _ & _).
    + rewrite Hlen, Hsz. lia.
    + rewrite Hlen, Hsz. lia.
    + refine (conj H01 (Hcnn _)). rewrite Hlen, Hsz. lia.
Defined.

(** At window width 2 on 60000 samples the bound [size + ordem ≤ len] fails,
    yet [dataset_01] returns, and its last row is no window of the trace: the
    window has one sample, the row repeats it. *)
Lemma bounds_rejection_counterexample :
  abs_and_phases (ramp_signal 60000) = Return (ramp_data 60000) ∧
  size + 2 > Z.of_nat (length (amplitudes (ramp_data 60000))) ∧
  ¬ raises (dataset_01 (ramp_signal 60000) 2) ∧
  ∃ data X y last,
    dataset_01 (ramp_signal 60000) 2 = Return (data, X, y) ∧
    slice (amplitudes (ramp_data 60000)) 59999 (2 + 59999) = [last] ∧
    X !! Z.to_nat 59999 = Some [last; last].
Proof.
  destruct (order_two_on_size_samples (ramp_signal 60000) (ramp_data 60000))
    as (data & X & y & last & Hret & _ & Hwin & Hrow & _).
  { apply abs_and_phases_ramp. }
  { rewrite length_ramp_amplitudes, size_eq; lia. }
  split; [apply abs_and_phases_ramp|]. split.
  { rewrite length_ramp_amplitudes, size_eq; lia. }
  split.
  { intros [e He]. rewrite Hret in He. discriminate He. }
  exists data, X, y, last. exact (conj Hret (conj Hwin Hrow)).
Qed.

(** * Further properties of the code *)

(** ** More complex arithmetic *)

Section ComplexEnvelope.
Local Open Scope R_scope.

(** Rotating a sample by the carrier keeps its magnitude. *)
Lemma Cabs_mult_carrier (z : C) (θ : R) :
  Cabs (Cmult z (Cexp (Cmult Ci (RtoC θ)))) = Cabs z.
Proof.
  rewrite Cexp_i. destruct z as [x y]. unfold Cabs, Cmult; cbn [fst snd].
  f_equal. pose proof (cos_sin_unit θ) as H.
  transitivity ((x * x + y * y) * (cos θ * cos θ + sin θ * sin θ)); [ring|].
  rewrite H. ring.
Qed.

Lemma Cabs_div_carrier (z : C) (θ : R) :
  Cabs (Cdiv z (Cexp (Cmult Ci (RtoC θ)))) = Cabs z.
Proof.
  rewrite Cexp_i. destruct z as [x y]. unfold Cabs, Cdiv; cbn [fst snd].
  rewrite cos_sin_unit. f_equal. pose proof (cos_sin_unit θ) as H.
  transitivity ((x * x + y * y) * (cos θ * cos θ + sin θ * sin θ)); [field|].
  rewrite H. ring.
Qed.

(** Dividing by the carrier and multiplying by it again changes nothing. *)
Lemma carrier_restore (A z : C) (θ : R) :
  Cplus A (Cmult (Cdiv (Cminus z A) (Cexp (Cmult Ci (RtoC θ))))
                 (Cexp (Cmult Ci (RtoC θ)))) = z.
Proof.
  rewrite Cexp_i. destruct A as [a1 a2], z as [x y].
  unfold Cdiv, Cminus, Cplus, Cmult; cbn [fst snd].
  rewrite cos_sin_unit. pose proof (cos_sin_unit θ) as H.
  f_equal.
  - transitivity (a1 + (x - a1) * (cos θ * cos θ + sin θ * sin θ));
      [field | rewrite H; ring].
  - transitivity (a2 + (y - a2) * (cos θ * cos θ + sin θ * sin θ));
      [field | rewrite H; ring].
Qed.

Lemma Cplus_Cminus (A w : C) : Cminus (Cplus A w) A = w.
Proof.
  destruct A, w. unfold Cminus, Cplus; cbn [fst snd]. f_equal; ring.
Qed.

Lemma Cabs_sqr (z : C) : Cabs z * Cabs z = z.1 * z.1 + z.2 * z.2.
Proof. unfold Cabs. apply sqrt_sqrt. nra. Qed.

Lemma Rabs_bounds (a b : R) : Rabs a <= b → - b <= a <= b.
Proof. unfold Rabs. destruct (Rcase_abs a); lra. Qed.

(** Cauchy-Schwarz for two samples, through their magnitudes. *)
Lemma Cabs_inner (z w : C) :
  Rabs (z.1 * w.1 + z.2 * w.2) <= Cabs z * Cabs w.
Proof.
  pose proof (Cabs_nonneg z) as Hz. pose proof (Cabs_nonneg w) as Hw.
  pose proof (Cabs_sqr z) as Hz2. pose proof (Cabs_sqr w) as Hw2.
  destruct z as [a b], w as [c d]. cbn [fst snd] in *.
  generalize dependent (Cabs (a, b)). generalize dependent (Cabs (c, d)).
  intros q Hq Hq2 p Hp Hp2.
  apply Rsqr_incr_0_var; [|by apply Rmult_le_pos].
  rewrite <- Rsqr_abs. unfold Rsqr.
  replace ((p * q) * (p * q)) with ((p * p) * (q * q)) by ring.
  rewrite Hp2, Hq2.
  pose proof (Rle_0_sqr (a * d - b * c)) as Hsq. unfold Rsqr in Hsq.
  nra.
Qed.

(** The triangle inequality for the magnitude. *)
Lemma Cabs_triangle (z w : C) : Cabs (Cplus z w) <= Cabs z + Cabs w.
Proof.
  pose proof (Cabs_nonneg z) as Hz. pose proof (Cabs_nonneg w) as Hw.
  pose proof (Cabs_sqr z) as Hz2. pose proof (Cabs_sqr w) as Hw2.
  pose proof (Cabs_sqr (Cplus z w)) as Hs2.
  pose proof (Cabs_inner z w) as Hcs.
  apply Rabs_bounds in Hcs as [_ Hcs].
  apply Rsqr_incr_0_var; [|lra]. unfold Rsqr. rewrite Hs2.
  destruct z as [a b], w as [c d]. unfold Cplus in *. cbn [fst snd] in *.
  generalize dependent (Cabs (a, b)). generalize dependent (Cabs (c, d)).
  intros q Hq Hq2 p Hp Hp2 Hcs. nra.
Qed.

(** Whoever is no longer than the offset, added to it, does not point
    against it. *)
Lemma offset_half_plane (A w : C) :
  Cabs w <= Cabs A →
  0 <= (Cplus A w).1 * A.1 + (Cplus A w).2 * A.2.
Proof.
  intros Hle.
  pose proof (Cabs_nonneg A) as HA. pose proof (Cabs_nonneg w) as Hw.
  pose proof (Cabs_sqr A) as HA2.
  pose proof (Cabs_inner w A) as Hcs.
  apply Rabs_bounds in Hcs as [Hcs _].
  destruct A as [a b], w as [c d]. unfold Cplus. cbn [fst snd] in *.
  revert Hle HA Hw HA2 Hcs.
  generalize (Cabs (a, b)) (Cabs (c, d)). intros p q Hle Hp Hq Hp2 Hcs.
  nra.
Qed.

End ComplexEnvelope.

(** ** The envelope of the minimum-phase signal *)

Section Envelope.
Local Open Scope R_scope.

(** The samples of what [fase_min] returns, one by one. *)
Lemma fase_min_samples (s sfilt : Signal) (s0 : list C) :
  modes s !! 0%nat = Some s0 →
  modes sfilt ≠ [] → s0 ≠ [] →
  Forall (λ row, length row = length s0) (modes sfilt) →
  ∃ sfm A,
    fase_min s sfilt = Return (sfm, A) ∧
    fs sfm = fs sfilt ∧ fb sfm = fb sfilt ∧
    (∃ row z, row ∈ modes sfilt ∧ z ∈ row ∧ Cabs z = Cabs A) ∧
    (∀ row z, row ∈ modes sfilt → z ∈ row → Cabs z <= Cabs A) ∧
    Forall2 (λ row' row,
      Forall2 (λ z' z, ∃ θ, z' = Cplus A (Cmult z (Cexp (Cmult Ci (RtoC θ)))))
              row' row)
      (modes sfm) (modes sfilt).
Proof.
  intros Hs0 Hne Hs0ne Hrect.
  destruct (fase_min_rect s sfilt s0) as (peak & Hpeak & Hfwd); try done.
  cbn zeta in Hfwd.
  set (A := Cmult (RtoC peak) (Cexp (Cmult Ci (RtoC (deg2rad 45))))) in *.
  set (Δ := Δf_ramp (fb sfilt) (time_vector (length s0) (fs s))) in *.
  apply np_max_spec in Hpeak as [Hin Hub].
  assert (Hpos : 0 <= peak).
  { apply list_elem_of_join in Hin as (l & Hpl & Hl).
    apply list_elem_of_fmap in Hl as (row & -> & _).
    apply list_elem_of_fmap in Hpl as (z & -> & _). apply Cabs_nonneg. }
  assert (HA : Cabs A = peak) by (by apply Cabs_rotated).
  eexists _, A. split; [exact Hfwd|]. cbn [fs fb modes].
  do 2 (split; [done|]). rewrite HA. split; [|split].
  - apply list_elem_of_join in Hin as (l & Hpl & Hl).
    apply list_elem_of_fmap in Hl as (row & -> & Hrow).
    apply list_elem_of_fmap in Hpl as (z & -> & Hz). by exists row, z.
  - intros row z Hrow Hz. apply Hub, list_elem_of_join.
    exists (Cabs <$> row). split.
    + by apply list_elem_of_fmap_2.
    + by apply (list_elem_of_fmap_2 (λ row : list C, Cabs <$> row)).
  - apply Forall2_fmap_l, Forall_Forall2_diag.
    eapply Forall_impl; [exact Hrect|]. intros row Hrow. cbn in Hrow |- *.
    apply Forall2_fmap_l.
    assert (HΔ : length row = length Δ).
    { subst Δ. unfold Δf_ramp, time_vector.
      rewrite !length_fmap, length_seqZ. lia. }
    clearbody Δ. clear -HΔ. revert Δ HΔ.
    induction row as [|z row IH]; intros [|θ Δ] HΔ; try done; cbn.
    constructor; [by exists θ|]. apply IH. cbn in HΔ. lia.
Qed.

(** X1. The minimum-phase envelope.  Every sample of the signal returned by
    [fase_min] lies within distance [|A|] of the offset [A], does not point
    against [A] (their inner product is not negative), and has magnitude at
    most [2|A|]; and some sample of the filtered signal has magnitude exactly
    [|A|], so the offset is no larger than it has to be. *)
Theorem fase_min_envelope (s sfilt : Signal) (s0 : list C) :
  modes s !! 0%nat = Some s0 →
  modes sfilt ≠ [] → s0 ≠ [] →
  Forall (λ row, length row = length s0) (modes sfilt) →
  ∃ sfm A,
    fase_min s sfilt = Return (sfm, A) ∧
    (∃ row z, row ∈ modes sfilt ∧ z ∈ row ∧ Cabs z = Cabs A) ∧
    ∀ row' z', row' ∈ modes sfm → z' ∈ row' →
      Cabs (Cminus z' A) <= Cabs A ∧
      0 <= z'.1 * A.1 + z'.2 * A.2 ∧
      Cabs z' <= 2 * Cabs A.
Proof.
  intros Hs0 Hne Hs0ne Hrect.
  destruct (fase_min_samples s sfilt s0)
    as (sfm & A & Hret & _ & _ & Hex & Hub & Hall); try done.
  exists sfm, A. do 2 (split; [done|]).
  intros row' z' Hrow' Hz'.
  apply list_elem_of_lookup in Hrow' as [m Hm].
  destruct (Forall2_lookup_l _ _ _ _ _ Hall Hm) as (row & Hrow & Hrows).
  apply list_elem_of_lookup in Hz' as [n Hn].
  destruct (Forall2_lookup_l _ _ _ _ _ Hrows Hn) as (z & Hz & θ & ->).
  assert (Hle : Cabs (Cmult z (Cexp (Cmult Ci (RtoC θ)))) <= Cabs A).
  { rewrite Cabs_mult_carrier. apply (Hub row).
    - by eapply list_elem_of_lookup_2.
    - by eapply list_elem_of_lookup_2. }
  split; [by rewrite Cplus_Cminus|]. split; [by apply offset_half_plane|].
  etrans; [apply Cabs_triangle|]. lra.
Qed.

Lemma fase_min_envelope_witness :
  ∃ sfm A,
    fase_min short_signal short_signal = Return (sfm, A) ∧
    ∀ row' z', row' ∈ modes sfm → z' ∈ row' → Cabs z' <= 2 * Cabs A.
Proof.
  destruct (fase_min_envelope short_signal short_signal short_samples)
    as (sfm & A & Hret & _ & Hall).
  - reflexivity.
  - discriminate.
  - discriminate.
  - repeat constructor.
  - exists sfm, A. split; [exact Hret|].
    intros row' z' Hrow' Hz'. exact (proj2 (proj2 (Hall row' z' Hrow' Hz'))).
Defined.

(** X2. The amplitude trace of the minimum-phase signal.  Splitting what
    [fase_min] returns gives as many amplitudes and phases as the first mode
    has samples, and every amplitude lies between [0] and [2|A|]. *)
Theorem fase_min_amplitudes_bounded (s sfilt : Signal) (s0 : list C) :
  modes s !! 0%nat = Some s0 →
  modes sfilt ≠ [] → s0 ≠ [] →
  Forall (λ row, length row = length s0) (modes sfilt) →
  ∃ sfm A data,
    fase_min s sfilt = Return (sfm, A) ∧
    abs_and_phases sfm = Return data ∧
    length (amplitudes data) = length s0 ∧
    length (phases data) = length s0 ∧
    ∀ a, a ∈ amplitudes data → 0 <= a <= 2 * Cabs A.
Proof.
  intros Hs0 Hne Hs0ne Hrect.
  destruct (fase_min_samples s sfilt s0)
    as (sfm & A & Hret & _ & _ & _ & Hub & Hall); try done.
  destruct (modes sfilt) as [|row rows] eqn:Hm; [done|].
  destruct (modes sfm) as [|row' rows'] eqn:Hm'; [by inversion Hall|].
  apply Forall2_cons in Hall as [Hrow _].
  apply Forall_cons in Hrect as [Hlen _].
  exists sfm, A, (mkData (Cabs <$> row') (Cangle <$> row')).
  split; [done|]. split.
  { unfold abs_and_phases. by rewrite Hm'. }
  cbn [amplitudes phases]. rewrite !length_fmap.
  rewrite (Forall2_length _ _ _ Hrow), Hlen. do 2 (split; [done|]).
  intros a (z' & -> & Hz')%list_elem_of_fmap. split; [apply Cabs_nonneg|].
  apply list_elem_of_lookup in Hz' as [n Hn].
  destruct (Forall2_lookup_l _ _ _ _ _ Hrow Hn) as (z & Hz & θ & ->).
  etrans; [apply Cabs_triangle|]. rewrite Cabs_mult_carrier.
  assert (Cabs z <= Cabs A); [|lra].
  apply (Hub row); [left|]. by eapply list_elem_of_lookup_2.
Qed.

Lemma fase_min_amplitudes_bounded_witness :
  ∃ sfm A data,
    fase_min short_signal short_signal = Return (sfm, A) ∧
    abs_and_phases sfm = Return data ∧
    length (amplitudes data) = 3%nat ∧
    ∀ a, a ∈ amplitudes data → 0 <= a <= 2 * Cabs A.
Proof.
  destruct (fase_min_amplitudes_bounded short_signal short_signal
              short_samples) as (sfm & A & data & Hret & Hd & Hl & _ & Hall).
  - reflexivity.
  - discriminate.
  - discriminate.
  - repeat constructor.
  - exists sfm, A, data. exact (conj Hret (conj Hd (conj Hl Hall))).
Defined.

End Envelope.

(** ** Sample counts that do not match *)

Lemma broadcast2_mismatch {A B D} (f : A → B → D) xs ys :
  length xs ≠ length ys → length xs ≠ 1%nat → length ys ≠ 1%nat →
  broadcast2 f xs ys = Raise ValueError.
Proof.
  intros Hne Hx Hy. unfold broadcast2. rewrite decide_False by done.
  destruct xs as [|x [|x' xs]]; destruct ys as [|y [|y' ys]]; done.
Qed.

Lemma broadcast2_stretch {A B D} (f : A → B → D) (x : A) ys :
  broadcast2 f [x] ys = Return (f x <$> ys).
Proof.
  unfold broadcast2. case_decide as Hlen; [|done].
  destruct ys as [|y [|y' ys]]; done.
Qed.

Lemma mapM_Raise_head {A B} (f : A → result B) (x : A) (l : list A) e :
  f x = Raise e → mapM f (x :: l) = Raise e.
Proof.
  intros Hx.
  change (mapM f (x :: l)) with (y ← f x; k ← mapM f l; mret (y :: k)).
  by rewrite Hx.
Qed.

Lemma join_empty_rows {A} (a : list (list A)) :
  Forall (λ row, length row = 0%nat) a → mjoin a = [].
Proof.
  induction 1 as [|row a Hrow _ IH]; [done|].
  destruct row; [|done]. exact IH.
Qed.

Section Mismatch.
Local Open Scope R_scope.

(** X3. Sample counts that disagree are refused.  When the modes of the
    filtered signal have [L] samples, the signal the time vector is taken
    from has another number of them, and neither number is one, [fase_min]
    raises [ValueError] (from [np.max] for [L = 0], from the product
    otherwise) instead of returning a signal. *)
Theorem fase_min_rejects_mismatch (s sfilt : Signal) (s0 : list C) (L : nat) :
  modes s !! 0%nat = Some s0 →
  modes sfilt ≠ [] →
  Forall (λ row, length row = L) (modes sfilt) →
  L ≠ length s0 → L ≠ 1%nat → length s0 ≠ 1%nat →
  fase_min s sfilt = Raise ValueError.
Proof.
  intros Hs0 Hne Hrect HL HL1 HN1. unfold fase_min.
  rewrite (getitem0_lookup _ _ Hs0).
  change (Return ?x ≫= ?k) with (k x). cbn beta zeta.
  destruct (decide (L = 0%nat)) as [->|HL0].
  { rewrite join_empty_rows; [done|].
    apply Forall_fmap. eapply Forall_impl; [exact Hrect|].
    intros row Hrow. cbn in Hrow |- *. by rewrite length_fmap. }
  destruct (peak_returns sfilt L Hne HL0 Hrect) as [peak ->].
  change (Return ?x ≫= ?k) with (k x). cbn beta zeta.
  destruct (modes sfilt) as [|row rows]; [done|].
  apply Forall_cons in Hrect as [Hrow _].
  unfold broadcast_rows. rewrite (mapM_Raise_head _ _ _ ValueError); [done|].
  apply broadcast2_mismatch; rewrite ?length_carrier_ramp; congruence.
Qed.

Lemma fase_min_rejects_mismatch_witness :
  fase_min (mkSignal [[(1, 0); (0, 1)]] 4 2) short_signal = Raise ValueError.
Proof.
  apply (fase_min_rejects_mismatch _ short_signal [(1, 0); (0, 1)] 3).
  - reflexivity.
  - discriminate.
  - repeat constructor.
  - cbn; lia.
  - lia.
  - cbn; lia.
Defined.

(** X4. One sample per mode is stretched.  A filtered signal whose modes
    have a single sample passes the product by broadcasting: [fase_min]
    returns a signal whose modes all have the sample count of the signal the
    time vector is taken from, whatever that count is. *)
Theorem fase_min_stretches_single_sample (s sfilt : Signal) (s0 : list C) :
  modes s !! 0%nat = Some s0 →
  modes sfilt ≠ [] →
  Forall (λ row, length row = 1%nat) (modes sfilt) →
  ∃ sfm A,
    fase_min s sfilt = Return (sfm, A) ∧
    length (modes sfm) = length (modes sfilt) ∧
    Forall (λ row', length row' = length s0) (modes sfm).
Proof.
  intros Hs0 Hne Hrect. unfold fase_min.
  rewrite (getitem0_lookup _ _ Hs0).
  change (Return ?x ≫= ?k) with (k x). cbn beta zeta.
  destruct (peak_returns sfilt 1 Hne) as [peak ->]; [done..|].
  change (Return ?x ≫= ?k) with (k x). cbn beta zeta.
  set (car := carrier (Δf_ramp (fb sfilt) (time_vector (length s0) (fs s)))).
  assert (Hcar : length car = length s0) by apply length_carrier_ramp.
  unfold broadcast_rows.
  rewrite (mapM_Return _ (λ row : list C,
             match row with [x] => Cmult x <$> car | _ => [] end)).
  2:{ eapply Forall_impl; [exact Hrect|]. intros row Hrow. cbn in Hrow |- *.
      destruct row as [|x [|x' row]]; try done. apply broadcast2_stretch. }
  change (Return ?x ≫= ?k) with (k x). cbn beta zeta.
  eexists _, _. split; [reflexivity|]. cbn [modes].
  rewrite !length_fmap. split; [done|].
  do 2 apply Forall_fmap. eapply Forall_impl; [exact Hrect|].
  intros row Hrow. cbn in Hrow |- *.
  destruct row as [|x [|x' row]]; try done. by rewrite !length_fmap.
Qed.

Lemma fase_min_stretches_single_sample_witness :
  ∃ sfm A,
    fase_min short_signal (mkSignal [[(3, 4)]] 8 2) = Return (sfm, A) ∧
    length (modes sfm) = 1%nat ∧
    Forall (λ row', length row' = 3%nat) (modes sfm).
Proof.
  apply (fase_min_stretches_single_sample short_signal
           (mkSignal [[(3, 4)]] 8 2) short_samples).
  - reflexivity.
  - discriminate.
  - repeat constructor.
Defined.

End Mismatch.

(** ** The inverse transform on its own *)

Section Reverter.
Local Open Scope R_scope.

(** What [reverter_sinal_fase_min] returns on a signal with a first mode
    whose modes all have the same sample count. *)
Lemma reverter_samples (sinal : Signal) (A : C) (m0 : list C) :
  modes sinal !! 0%nat = Some m0 →
  Forall (λ row, length row = length m0) (modes sinal) →
  let car := carrier (Δf_ramp (fb sinal) (time_vector (length m0) (fs sinal)))
  in
  reverter_sinal_fase_min sinal A =
    Return (mkSignal
              ((λ row : list C, zip_with Cdiv ((λ z, Cminus z A) <$> row) car)
                 <$> modes sinal)
              (fs sinal) (fb sinal)).
Proof.
  intros Hm0 Hrect car. unfold reverter_sinal_fase_min.
  rewrite (getitem0_lookup _ _ Hm0).
  change (Return ?x ≫= ?k) with (k x). cbn beta zeta. fold car.
  rewrite broadcast_rows_rect.
  2:{ apply Forall_fmap. eapply Forall_impl; [exact Hrect|].
      intros row Hrow. cbn in Hrow |- *. subst car.
      by rewrite length_fmap, length_carrier_ramp. }
  change (Return ?x ≫= ?k) with (k x). cbn beta.
  by rewrite <- list_fmap_compose.
Qed.

Lemma lookup_carrier_ramp (fb0 fs0 : R) (N n : nat) :
  (n < N)%nat →
  carrier (Δf_ramp fb0 (time_vector N fs0)) !! n
    = Some (Cexp (Cmult Ci (RtoC
              (2 * PI * (fb0 / 2) * (IZR (Z.of_nat n) / fs0))))).
Proof.
  intros Hn. unfold carrier, Δf_ramp.
  by rewrite !list_lookup_fmap, lookup_time_vector.
Qed.

(** X5. The inverse on any signal.  On a signal with a first mode whose
    modes all have the same sample count, [reverter_sinal_fase_min] returns a
    signal with the same rates and as many modes; sample [n] of a mode is
    [(z - A) / exp(iΔf(t_n))] for the sample [z] it comes from, its magnitude
    is the distance of [z] from [A], and adding [A] to its product with
    [exp(iΔf(t_n))] gives [z] back. *)
Theorem reverter_contract (sinal : Signal) (A : C) (m0 : list C) :
  modes sinal !! 0%nat = Some m0 →
  Forall (λ row, length row = length m0) (modes sinal) →
  ∃ r,
    reverter_sinal_fase_min sinal A = Return r ∧
    fs r = fs sinal ∧ fb r = fb sinal ∧
    length (modes r) = length (modes sinal) ∧
    ∀ (m n : nat) (row : list C) (z : C),
      modes sinal !! m = Some row → row !! n = Some z →
      let e := Cexp (Cmult Ci (RtoC
                 (2 * PI * (fb sinal / 2) * (IZR (Z.of_nat n) / fs sinal)))) in
      ∃ row', modes r !! m = Some row' ∧ length row' = length row ∧
        row' !! n = Some (Cdiv (Cminus z A) e) ∧
        Cabs (Cdiv (Cminus z A) e) = Cabs (Cminus z A) ∧
        Cplus A (Cmult (Cdiv (Cminus z A) e) e) = z.
Proof.
  intros Hm0 Hrect. rewrite (reverter_samples _ _ _ Hm0 Hrect).
  eexists. split; [reflexivity|]. cbn [fs fb modes].
  do 2 (split; [done|]). split; [by rewrite length_fmap|].
  intros m n row z Hrow Hz.
  assert (Hlen : length row = length m0).
  { by eapply (Forall_lookup_1 _ _ _ _ Hrect). }
  assert (Hn : (n < length m0)%nat).
  { rewrite <- Hlen. by eapply lookup_lt_Some. }
  rewrite list_lookup_fmap, Hrow. eexists. split; [reflexivity|].
  split.
  { rewrite length_zip_with, length_fmap, length_carrier_ramp. lia. }
  split.
  { rewrite lookup_zip_with, list_lookup_fmap, Hz. cbn.
    by rewrite lookup_carrier_ramp. }
  split; [apply Cabs_div_carrier | apply carrier_restore].
Qed.

Lemma reverter_contract_witness :
  ∃ r,
    reverter_sinal_fase_min short_signal (1, 1) = Return r ∧
    fs r = fs short_signal ∧ fb r = fb short_signal ∧
    length (modes r) = 2%nat.
Proof.
  destruct (reverter_contract short_signal (1, 1) short_samples)
    as (r & Hret & Hfs & Hfb & Hlen & _).
  - reflexivity.
  - repeat constructor.
  - exists r. exact (conj Hret (conj Hfs (conj Hfb Hlen))).
Defined.

Lemma Cdiv_Cminus_offsets (z A A' e : C) :
  Cminus (Cdiv (Cminus z A) e) (Cdiv (Cminus z A') e)
    = Cdiv (Cminus A' A) e.
Proof.
  destruct z, A, A', e. unfold Cminus, Cdiv; cbn [fst snd].
  f_equal; unfold Rdiv; ring.
Qed.

(** X6. A wrong offset shifts every sample by the same distance.  Inverting
    one signal with two offsets [A] and [A'] gives two signals that differ,
    sample by sample, by a vector of magnitude [|A' - A|]: an error in the
    offset is neither damped nor detected. *)
Theorem reverter_offset_error (sinal : Signal) (A A' : C) (m0 : list C) :
  modes sinal !! 0%nat = Some m0 →
  Forall (λ row, length row = length m0) (modes sinal) →
  ∃ r r',
    reverter_sinal_fase_min sinal A = Return r ∧
    reverter_sinal_fase_min sinal A' = Return r' ∧
    Forall2 (Forall2 (λ z z', Cabs (Cminus z z') = Cabs (Cminus A' A)))
            (modes r) (modes r').
Proof.
  intros Hm0 Hrect.
  rewrite !(reverter_samples _ _ _ Hm0 Hrect).
  eexists _, _. do 2 (split; [reflexivity|]). cbn [modes].
  apply Forall2_fmap, Forall_Forall2_diag.
  eapply Forall_impl; [exact Hrect|]. intros row Hrow. cbn in Hrow |- *.
  generalize (Δf_ramp (fb sinal) (time_vector (length m0) (fs sinal))).
  clear. intros Δ. revert Δ.
  induction row as [|z row IH]; intros [|θ Δ]; cbn; try constructor.
  - by rewrite Cdiv_Cminus_offsets, Cabs_div_carrier.
  - apply IH.
Qed.

Lemma reverter_offset_error_witness :
  ∃ r r',
    reverter_sinal_fase_min short_signal (1, 1) = Return r ∧
    reverter_sinal_fase_min short_signal (0, 0) = Return r' ∧
    Forall2 (Forall2 (λ z z', Cabs (Cminus z z') = Cabs (Cminus (0, 0) (1, 1))))
            (modes r) (modes r').
Proof.
  apply (reverter_offset_error short_signal (1, 1) (0, 0) short_samples).
  - reflexivity.
  - repeat constructor.
Defined.

End Reverter.

(** ** What the builders keep, whatever the input *)

Lemma setitem_row_shape (X X' : list (list R)) (n : Z) (aux : list R)
    (k : nat) :
  setitem_row X n aux = Return X' →
  length X' = length X ∧
  (Forall (λ r, length r = k) X → Forall (λ r, length r = k) X').
Proof.
  unfold setitem_row. destruct (X !! Z.to_nat n) as [old|] eqn:Hold; [|done].
  case_decide as Hlen.
  - intros [= <-]. rewrite length_insert. split; [done|]. intros HX.
    apply Forall_insert; [done|].
    rewrite Hlen. by eapply (Forall_lookup_1 _ _ _ _ HX).
  - destruct aux as [|a [|b aux]]; try done.
    intros [= <-]. rewrite length_insert. split; [done|]. intros HX.
    apply Forall_insert; [done|]. rewrite length_replicate.
    by eapply (Forall_lookup_1 _ _ _ _ HX).
Qed.

Lemma fill_windows_shape (amps : list R) (ordem : Z) (k : nat)
    (ns : list Z) (X X' : list (list R)) :
  fill_windows amps ordem ns X = Return X' →
  length X' = length X ∧
  (Forall (λ r, length r = k) X → Forall (λ r, length r = k) X').
Proof.
  revert X. induction ns as [|n ns IH]; intros X; cbn [fill_windows].
  { by intros [= <-]. }
  destruct (setitem_row X n _) as [X1|e] eqn:Hset; [|done].
  change (Return ?x ≫= ?f) with (f x). cbn beta. intros Hfill.
  destruct (setitem_row_shape _ _ _ _ k Hset) as [Hlen1 H1].
  destruct (IH _ Hfill) as [Hlen2 H2].
  split; [congruence|auto].
Qed.

Lemma length_slice_same {A B} (l : list A) (l' : list B) (i j : Z) :
  length l = length l' → length (slice l i j) = length (slice l' i j).
Proof.
  intros H. unfold slice. rewrite !length_take, !length_drop. by rewrite H.
Qed.

Lemma length_slice_le {A} (l : list A) (i j : Z) :
  Z.of_nat (length (slice l i j))
    ≤ Z.max 0 (clamp_index (Z.of_nat (length l)) j
               - clamp_index (Z.of_nat (length l)) i).
Proof. unfold slice. rewrite length_take. lia. Qed.

(** The loop of the flat builders, from the zero matrix on. *)
Lemma feature_rows_shape (amps : list R) (ordem : Z) (X : list (list R)) :
  np_zeros2 size ordem ≫= fill_windows amps ordem (seqZ 0 size) = Return X →
  0 ≤ ordem ∧
  Z.of_nat (length X) = size ∧
  Forall (λ row, Z.of_nat (length row) = ordem) X.
Proof.
  pose proof size_eq as Hsz. unfold np_zeros2.
  case_decide as Hneg; [done|].
  change (Return ?x ≫= ?f) with (f x). intros Hfill.
  destruct (fill_windows_shape _ _ (Z.to_nat ordem) _ _ _ Hfill)
    as [Hlen Hrect].
  rewrite length_replicate in Hlen. split; [lia|]. split; [lia|].
  eapply Forall_impl.
  - apply Hrect, Forall_replicate, length_replicate.
  - intros row Hrow. cbn in Hrow. lia.
Qed.

Lemma flat_builder_inv (sfm : Signal) (ordem : Z) data X y :
  dataset_01 sfm ordem = Return (data, X, y) ∨
  dataset_02 sfm ordem = Return (data, X, y) ∨
  dataset_03 sfm ordem = Return (data, X, y) →
  ∃ d0 lo hi,
    abs_and_phases sfm = Return d0 ∧
    np_zeros2 size ordem ≫= fill_windows (amplitudes d0) ordem (seqZ 0 size)
      = Return X ∧
    data = mkData (slice (amplitudes d0) lo hi) (slice (phases d0) lo hi) ∧
    y = slice (phases d0) lo hi ∧
    (lo = ordem - 1 ∧ hi = size + ordem - 1 ∨
     lo = int_half ordem ∧ hi = size + int_half ordem ∨
     lo = 0 ∧ hi = size).
Proof.
  unfold dataset_01, dataset_02, dataset_03.
  destruct (abs_and_phases sfm) as [d0|e]; [|by intros [|[|]]].
  change (Return ?x ≫= ?f) with (f x). cbn beta zeta.
  destruct (np_zeros2 size ordem) as [X0|e]; [|by intros [|[|]]].
  change (Return ?x ≫= ?f) with (f x). cbn beta.
  destruct (fill_windows _ ordem _ X0) as [X1|e] eqn:HX1; [|by intros [|[|]]].
  change (Return ?x ≫= ?f) with (f x). cbn beta.
  intros [[= <- <- <-]|[[= <- <- <-]|[= <- <- <-]]];
    eexists d0, _, _; (split; [reflexivity|]); (split; [exact HX1|]);
    (do 2 (split; [reflexivity|])); auto.
Qed.

(** X7. The three flat variants share their features: on every signal and
    window width, [dataset_01], [dataset_02] and [dataset_03] raise the same
    exception or return the same feature matrix; they differ in targets and
    returned traces only. *)
Theorem flat_builders_share_features (sfm : Signal) (ordem : Z) :
  features (dataset_01 sfm ordem) = features (dataset_02 sfm ordem) ∧
  features (dataset_02 sfm ordem) = features (dataset_03 sfm ordem).
Proof.
  unfold features, dataset_01, dataset_02, dataset_03.
  destruct (abs_and_phases sfm) as [d0|e]; [|done].
  change (Return ?x ≫= ?f) with (f x). cbn beta zeta.
  destruct (np_zeros2 size ordem) as [X0|e]; [|done].
  change (Return ?x ≫= ?f) with (f x). cbn beta.
  destruct (fill_windows _ ordem _ X0) as [X1|e]; done.
Qed.

(** X8. The shape a flat builder returns.  Whenever [dataset_01],
    [dataset_02] or [dataset_03] returns, on whatever input, the window width
    is not negative, the feature matrix has 60000 rows of [ordem] entries, the
    returned phases are the targets, the returned amplitudes are as many, and
    there are at most 60000 targets. *)
Theorem flat_builders_shape (sfm : Signal) (ordem : Z) data X y :
  dataset_01 sfm ordem = Return (data, X, y) ∨
  dataset_02 sfm ordem = Return (data, X, y) ∨
  dataset_03 sfm ordem = Return (data, X, y) →
  0 ≤ ordem ∧
  Z.of_nat (length X) = 60000 ∧
  Forall (λ row, Z.of_nat (length row) = ordem) X ∧
  phases data = y ∧
  length (amplitudes data) = length y ∧
  Z.of_nat (length y) ≤ 60000.
Proof.
  intros (d0 & lo & hi & Hd & HX & -> & -> & Hcut)%flat_builder_inv.
  pose proof size_eq as Hsz.
  destruct (feature_rows_shape _ _ _ HX) as (Hord & HlenX & Hrect).
  split; [done|]. split; [lia|]. split; [done|]. cbn [phases amplitudes].
  split; [done|]. split.
  { apply length_slice_same. symmetry. by eapply abs_and_phases_lengths. }
  pose proof (length_slice_le (phases d0) lo hi) as Hle.
  assert (Hhalf : int_half ordem = ordem / 2) by (by apply int_half_floor).
  unfold clamp_index in Hle. repeat case_decide; div_lia.
Qed.

Lemma flat_builders_shape_witness :
  ∃ data X y,
    dataset_01 (ramp_signal 60003) 4 = Return (data, X, y) ∧
    Z.of_nat (length X) = 60000 ∧
    length (amplitudes data) = length y.
Proof.
  destruct (feature_rows_full (amplitudes (ramp_data 60003)) 4)
    as (X & HX & _).
  - lia.
  - rewrite length_ramp_amplitudes, size_eq; lia.
  - pose proof (dataset_01_returns _ _ _ _ (abs_and_phases_ramp 60003) HX)
      as Hret.
    destruct (flat_builders_shape _ _ _ _ _ (or_introl Hret))
      as (_ & HlenX & _ & _ & Hlen & _).
    eexists _, X, _. exact (conj Hret (conj HlenX Hlen)).
Defined.

Lemma fill_grids_shape (amps : list R) (ordem : Z) (k : nat)
    (ns : list Z) (X X' : list (list (list R))) :
  fill_grids amps ordem ns X = Return X' →
  length X' = length X ∧
  (Forall (λ g, length <$> g = replicate k k) X →
   Forall (λ g, length <$> g = replicate k k) X').
Proof.
  revert X. induction ns as [|n ns IH]; intros X; cbn [fill_grids].
  { by intros [= <-]. }
  destruct (reshape2 _ ordem ordem) as [g|e]; [|done].
  change (Return ?x ≫= ?f) with (f x). cbn beta.
  unfold setitem_grid. destruct (X !! Z.to_nat n) as [old|] eqn:Hold; [|done].
  case_decide as Hshape; [|done].
  change (Return ?x ≫= ?f) with (f x). cbn beta. intros Hfill.
  destruct (IH _ Hfill) as [Hlen2 H2]. rewrite length_insert in Hlen2.
  split; [done|]. intros HX. apply H2, Forall_insert; [done|].
  rewrite Hshape. by eapply (Forall_lookup_1 _ _ _ _ HX).
Qed.

Lemma replicate_lengths_inv {A} (g : list (list A)) (k : nat) :
  length <$> g = replicate k k →
  length g = k ∧ Forall (λ row, length row = k) g.
Proof.
  intros H. split.
  - by rewrite <- (length_fmap length g), H, length_replicate.
  - apply Forall_lookup. intros i row Hrow.
    assert (Hi : (length <$> g) !! i = Some (length row))
      by (by rewrite list_lookup_fmap, Hrow).
    rewrite H in Hi. by apply lookup_replicate in Hi as [? _].
Qed.

(** X9. The shape the convolutional builder returns.  Whenever
    [dataset_02_CNN] returns, on whatever input, its feature array has shape
    [(60000, ordem, ordem, 1)], the returned phases are the targets, the
    returned amplitudes are as many, and there are at most 60000 targets. *)
Theorem dataset_02_CNN_shape (sfm : Signal) (ordem : Z) data X y :
  dataset_02_CNN sfm ordem = Return (data, X, y) →
  0 ≤ ordem ∧
  shape4 X 60000 ordem ordem 1 ∧
  phases data = y ∧
  length (amplitudes data) = length y ∧
  Z.of_nat (length y) ≤ 60000.
Proof.
  unfold dataset_02_CNN. pose proof size_eq as Hsz.
  destruct (abs_and_phases sfm) as [d0|e] eqn:Hd; [|done].
  change (Return ?x ≫= ?f) with (f x). cbn beta zeta.
  unfold np_zeros3. case_decide as Hneg; [done|].
  change (Return ?x ≫= ?f) with (f x). cbn beta.
  destruct (fill_grids _ ordem _ _) as [X3|e] eqn:HX3; [|done].
  change (Return ?x ≫= ?f) with (f x). cbn beta.
  intros [= <- <- <-]. cbn [phases amplitudes].
  destruct (fill_grids_shape _ _ (Z.to_nat ordem) _ _ _ HX3) as [Hlen Hrect].
  rewrite length_replicate in Hlen.
  split; [lia|]. split; [|split; [done|split]].
  - split; [unfold add_channel_axis; rewrite length_fmap; lia|].
    unfold add_channel_axis. apply Forall_fmap.
    eapply Forall_impl.
    { apply Hrect, Forall_replicate. rewrite fmap_replicate.
      by rewrite !length_replicate. }
    intros g [Hg Hrows]%replicate_lengths_inv. cbn.
    rewrite length_fmap. split; [lia|]. apply Forall_fmap.
    eapply Forall_impl; [exact Hrows|]. intros row Hrow. cbn in Hrow |- *.
    rewrite length_fmap. split; [lia|]. apply Forall_fmap.
    by apply Forall_true.
  - apply length_slice_same. symmetry. by eapply abs_and_phases_lengths.
  - pose proof (length_slice_le (phases d0) 0 size) as Hle.
    unfold clamp_index in Hle. repeat case_decide; lia.
Qed.

Lemma dataset_02_CNN_shape_witness :
  ∃ data X y,
    dataset_02_CNN (ramp_signal 60008) 3 = Return (data, X, y) ∧
    shape4 X 60000 3 3 1 ∧
    length (amplitudes data) = length y.
Proof.
  destruct (feature_grids_full (amplitudes (ramp_data 60008)) 3)
    as (X & HX & _).
  - lia.
  - rewrite length_ramp_amplitudes, size_eq; lia.
  - pose proof (dataset_02_CNN_returns _ _ _ _ (abs_and_phases_ramp 60008) HX)
      as Hret.
    destruct (dataset_02_CNN_shape _ _ _ _ _ Hret)
      as (_ & Hshape & _ & Hlen & _).
    eexists _, _, _. exact (conj Hret (conj Hshape Hlen)).
Defined.

(** X10. Which exception comes first.  On a signal without modes all four
    builders raise [IndexError], whatever the window width; on a signal with
    a mode and a negative window width all four raise [ValueError], whatever
    the length of the traces. *)
Theorem builders_reject_bad_input (sfm : Signal) (ordem : Z) :
  (modes sfm = [] →
     dataset_01 sfm ordem = Raise IndexError ∧
     dataset_02 sfm ordem = Raise IndexError ∧
     dataset_03 sfm ordem = Raise IndexError ∧
     dataset_02_CNN sfm ordem = Raise IndexError) ∧
  (modes sfm ≠ [] → ordem < 0 →
     dataset_01 sfm ordem = Raise ValueError ∧
     dataset_02 sfm ordem = Raise ValueError ∧
     dataset_03 sfm ordem = Raise ValueError ∧
     dataset_02_CNN sfm ordem = Raise ValueError).
Proof.
  unfold dataset_01, dataset_02, dataset_03, dataset_02_CNN, abs_and_phases.
  split.
  - by intros ->.
  - intros Hne Hneg. destruct (modes sfm) as [|m0 rest]; [done|].
    cbn [getitem0]. change (Return ?x ≫= ?f) with (f x). cbn beta zeta.
    change (Return ?x ≫= ?f) with (f x). cbn beta zeta.
    unfold np_zeros2, np_zeros3. by rewrite !decide_True by lia.
Qed.

Lemma builders_reject_bad_input_witness :
  dataset_01 (mkSignal [] 1 1) 4 = Raise IndexError ∧
  dataset_02_CNN short_signal (-1) = Raise ValueError.
Proof.
  destruct (builders_reject_bad_input (mkSignal [] 1 1) 4) as [Hidx _].
  destruct (builders_reject_bad_input short_signal (-1)) as [_ Hval].
  destruct (Hidx eq_refl) as (H1 & _).
  destruct Hval as (_ & _ & _ & H4); [discriminate | lia |].
  exact (conj H1 H4).
Defined.

(** ** Window width zero *)

Lemma slice_from_last_to_cut {A} (l : list A) :
  size ≤ Z.of_nat (length l) → slice l (0 - 1) (size + 0 - 1) = [].
Proof.
  intros Hlen. pose proof size_eq as Hsz. unfold slice, clamp_index.
  rewrite (decide_True (P := 0 - 1 < 0)) by lia.
  rewrite (decide_False (P := size + 0 - 1 < 0)) by lia.
  replace (Z.to_nat (_ - _)) with O by lia. done.
Qed.

Lemma slice_prefix {A} (l : list A) (j : Z) :
  0 ≤ j ≤ Z.of_nat (length l) → slice l 0 j = take (Z.to_nat j) l.
Proof.
  intros Hj. rewrite slice_inside by lia. unfold window.
  rewrite Z.sub_0_r. done.
Qed.

(** X11. Window width zero.  On traces of at least 60000 samples the flat
    builders accept [ordem = 0] and return 60000 empty feature rows.
    [dataset_01] then cuts its targets with [phases[-1:59999]], which counts
    from the end and is empty, so it returns no target and empty traces;
    [dataset_02] and [dataset_03] return the first 60000 phases. *)
Theorem flat_builders_zero_width (sfm : Signal) (d0 : Data) :
  abs_and_phases sfm = Return d0 →
  size ≤ Z.of_nat (length (amplitudes d0)) →
  ∃ X,
    Z.of_nat (length X) = 60000 ∧
    Forall (λ row, row = []) X ∧
    dataset_01 sfm 0 = Return (mkData [] [], X, []) ∧
    dataset_02 sfm 0 =
      Return (mkData (take (Z.to_nat 60000) (amplitudes d0))
                     (take (Z.to_nat 60000) (phases d0)),
              X, take (Z.to_nat 60000) (phases d0)) ∧
    dataset_03 sfm 0 =
      Return (mkData (take (Z.to_nat 60000) (amplitudes d0))
                     (take (Z.to_nat 60000) (phases d0)),
              X, take (Z.to_nat 60000) (phases d0)).
Proof.
  intros Hd Hlen. pose proof size_eq as Hsz.
  pose proof (abs_and_phases_lengths _ _ Hd) as Hph.
  destruct (feature_rows_full (amplitudes d0) 0)
    as (X & HX & HlenX & Hrect & _); [lia..|].
  exists X. split; [lia|]. split.
  { eapply Forall_impl; [exact Hrect|]. intros row Hrow. cbn in Hrow.
    destruct row; [done|]. cbn in Hrow. lia. }
  rewrite (dataset_01_returns _ _ _ _ Hd HX),
    (dataset_02_returns _ _ _ _ Hd HX), (dataset_03_returns _ _ _ _ Hd HX).
  rewrite !slice_from_last_to_cut by lia.
  change (int_half 0) with 0. rewrite Z.add_0_r.
  rewrite !slice_prefix by lia. by rewrite Hsz.
Qed.

Lemma flat_builders_zero_width_witness :
  ∃ X,
    Z.of_nat (length X) = 60000 ∧
    dataset_01 (ramp_signal 60000) 0 = Return (mkData [] [], X, []).
Proof.
  destruct (flat_builders_zero_width (ramp_signal 60000) (ramp_data 60000))
    as (X & HX & _ & H1 & _).
  - apply abs_and_phases_ramp.
  - rewrite length_ramp_amplitudes, size_eq; lia.
  - exists X. exact (conj HX H1).
Defined.

(** ** Rows, targets and traces against each other *)

(** X12. The convolutional variant is variant 3 at the squared width,
    reshaped.  For [ordem ≥ 1] and traces of at least [size + ordem² - 1]
    samples, [dataset_02_CNN] at width [ordem] and [dataset_03] at width
    [ordem²] return the same traces and the same targets, and row [n] of the
    flat matrix is the row-major flattening of grid [n]. *)
Theorem dataset_02_CNN_is_reshaped_dataset_03
    (sfm : Signal) (ordem : Z) (d0 : Data) :
  abs_and_phases sfm = Return d0 →
  1 ≤ ordem →
  size + ordem * ordem - 1 ≤ Z.of_nat (length (amplitudes d0)) →
  ∃ data X4 X2 y,
    dataset_02_CNN sfm ordem = Return (data, X4, y) ∧
    dataset_03 sfm (ordem * ordem) = Return (data, X2, y) ∧
    ∀ n : nat, Z.of_nat n < 60000 →
      ∃ grid row, X4 !! n = Some grid ∧ X2 !! n = Some row ∧
                  concat (concat grid) = row.
Proof.
  intros Hd Hord Hlen. pose proof size_eq as Hsz.
  destruct (feature_grids_full (amplitudes d0) ordem)
    as (X3 & HX3 & _ & Hgrids); [lia..|].
  destruct (feature_rows_full (amplitudes d0) (ordem * ordem))
    as (X2 & HX2 & _ & _ & Hrows); [nia..|].
  eexists _, (add_channel_axis X3), X2, _.
  split; [by apply dataset_02_CNN_returns|].
  split; [by apply dataset_03_returns|].
  intros n Hn. eexists _, _. unfold add_channel_axis.
  rewrite list_lookup_fmap, (Hgrids n), (Hrows n) by lia.
  do 2 (split; [reflexivity|]). rewrite flatten_channel.
  apply chunks_spec. rewrite length_window; nia.
Qed.

Lemma dataset_02_CNN_is_reshaped_dataset_03_witness :
  ∃ data X4 X2 y,
    dataset_02_CNN (ramp_signal 60008) 3 = Return (data, X4, y) ∧
    dataset_03 (ramp_signal 60008) 9 = Return (data, X2, y).
Proof.
  destruct (dataset_02_CNN_is_reshaped_dataset_03 (ramp_signal 60008) 3
              (ramp_data 60008)) as (data & X4 & X2 & y & H4 & H2 & _).
  - apply abs_and_phases_ramp.
  - lia.
  - rewrite length_ramp_amplitudes, size_eq; lia.
  - exists data, X4, X2, y. exact (conj H4 H2).
Defined.

(** X13. The returned amplitude is a column of the features.  For
    [ordem ≥ 1] and traces of at least [size + ordem - 1] samples the three
    flat builders return one feature matrix, and the amplitude each returns
    for row [n] is an entry of that row: the last one for [dataset_01], the
    one at [⌊ordem/2⌋] for [dataset_02], the first one for [dataset_03]. *)
Theorem returned_amplitude_in_row (sfm : Signal) (ordem : Z) (d0 : Data) :
  abs_and_phases sfm = Return d0 →
  1 ≤ ordem →
  size + ordem - 1 ≤ Z.of_nat (length (amplitudes d0)) →
  ∃ X d1 y1 d2 y2 d3 y3,
    dataset_01 sfm ordem = Return (d1, X, y1) ∧
    dataset_02 sfm ordem = Return (d2, X, y2) ∧
    dataset_03 sfm ordem = Return (d3, X, y3) ∧
    ∀ n : nat, Z.of_nat n < 60000 →
      ∃ row, X !! n = Some row ∧
        is_Some (amplitudes d1 !! n) ∧
        row !! Z.to_nat (ordem - 1) = amplitudes d1 !! n ∧
        row !! Z.to_nat (ordem / 2) = amplitudes d2 !! n ∧
        row !! 0%nat = amplitudes d3 !! n.
Proof.
  intros Hd Hord Hlen. pose proof size_eq as Hsz.
  assert (Hhalf : int_half ordem = ordem / 2) by (apply int_half_floor; lia).
  destruct (feature_rows_full (amplitudes d0) ordem)
    as (X & HX & _ & _ & Hrows); [lia..|].
  destruct (slice_trace (amplitudes d0) (ordem - 1) (size + ordem - 1))
    as [_ H1]; [lia..|].
  destruct (slice_trace (amplitudes d0) (int_half ordem)
              (size + int_half ordem)) as [_ H2]; [div_lia..|].
  destruct (slice_trace (amplitudes d0) 0 size) as [_ H3]; [lia..|].
  eexists X, _, _, _, _, _, _.
  split; [by apply dataset_01_returns|].
  split; [by apply dataset_02_returns|].
  split; [by apply dataset_03_returns|].
  intros n Hn. cbn [amplitudes]. eexists. split; [by apply Hrows|].
  destruct (H1 n) as [Hsome ->]; [lia|]. destruct (H2 n) as [_ ->]; [lia|].
  destruct (H3 n) as [_ ->]; [lia|]. split; [by rewrite <- (proj2 (H1 n ltac:(lia)))|].
  rewrite !lookup_window by div_lia. rewrite Hhalf.
  repeat split; f_equal; div_lia.
Qed.

Lemma returned_amplitude_in_row_witness :
  ∃ X d1 y1 d3 y3,
    dataset_01 (ramp_signal 60003) 4 = Return (d1, X, y1) ∧
    dataset_03 (ramp_signal 60003) 4 = Return (d3, X, y3).
Proof.
  destruct (returned_amplitude_in_row (ramp_signal 60003) 4 (ramp_data 60003))
    as (X & d1 & y1 & d2 & y2 & d3 & y3 & H1 & _ & H3 & _).
  - apply abs_and_phases_ramp.
  - lia.
  - rewrite length_ramp_amplitudes, size_eq; lia.
  - exists X, d1, y1, d3, y3. exact (conj H1 H3).
Defined.

Lemma window_slide {A} (l : list A) (n k : nat) :
  drop 1 (window l n k) = take (k - 1) (window l (S n) k).
Proof.
  unfold window. apply list_eq. intros i. rewrite lookup_drop.
  destruct (decide (i < k - 1)%nat) as [Hi|Hi].
  - rewrite !lookup_take_lt, !lookup_drop by lia. f_equal. lia.
  - by rewrite !lookup_take_ge by lia.
Qed.

(** X14. Consecutive feature rows overlap.  Under the same conditions, row
    [n + 1] of the feature matrix starts with row [n] without its first
    entry: the windows advance by one sample. *)
Theorem feature_rows_slide (sfm : Signal) (ordem : Z) (d0 : Data) :
  abs_and_phases sfm = Return d0 →
  1 ≤ ordem →
  size + ordem - 1 ≤ Z.of_nat (length (amplitudes d0)) →
  ∃ X,
    features (dataset_01 sfm ordem) = Return X ∧
    ∀ n : nat, Z.of_nat n + 1 < 60000 →
      ∃ row row', X !! n = Some row ∧ X !! S n = Some row' ∧
                  drop 1 row = take (Z.to_nat ordem - 1) row'.
Proof.
  intros Hd Hord Hlen. pose proof size_eq as Hsz.
  destruct (feature_rows_full (amplitudes d0) ordem)
    as (X & HX & _ & _ & Hrows); [lia..|].
  exists X. split.
  { by rewrite (dataset_01_returns _ _ _ _ Hd HX). }
  intros n Hn. eexists _, _.
  rewrite (Hrows n), (Hrows (S n)) by lia.
  do 2 (split; [reflexivity|]). apply window_slide.
Qed.

Lemma feature_rows_slide_witness :
  ∃ X, features (dataset_01 (ramp_signal 60003) 4) = Return X ∧
    ∃ row row', X !! 0%nat = Some row ∧ X !! 1%nat = Some row' ∧
                drop 1 row = take (Z.to_nat 4 - 1) row'.
Proof.
  destruct (feature_rows_slide (ramp_signal 60003) 4 (ramp_data 60003))
    as (X & HX & Hall).
  - apply abs_and_phases_ramp.
  - lia.
  - rewrite length_ramp_amplitudes, size_eq; lia.
  - exists X. split; [exact HX|]. apply (Hall 0%nat). lia.
Defined.

(** ** The export script *)

Lemma length_chunks {A} (r c : nat) (l : list A) : length (chunks r c l) = r.
Proof.
  revert l. induction r as [|r IH]; intros l; [done|]. cbn. by rewrite IH.
Qed.

Lemma lookup_chunks {A} (r c k : nat) (l : list A) :
  (k < r)%nat → chunks r c l !! k = Some (window l (k * c) c).
Proof.
  revert l k. induction r as [|r IH]; intros l k Hk; [lia|].
  destruct k as [|k]; cbn [chunks]; [done|].
  cbn [lookup list_lookup]. change (chunks r c (drop c l) !! k
    = Some (window l (S k * c) c)).
  rewrite IH by lia. unfold window. by rewrite drop_drop.
Qed.

Lemma lookup_stride_from {A} (step skip k : nat) (l : list A) :
  (1 ≤ step)%nat →
  stride_from step skip l !! k = l !! (skip + k * step)%nat.
Proof.
  intros Hstep. revert skip k.
  induction l as [|x l IH]; intros skip k; [done|].
  destruct skip as [|skip]; cbn [stride_from].
  - destruct k as [|k]; [done|].
    change (stride_from step (pred step) l !! k
            = (x :: l) !! (0 + S k * step)%nat).
    rewrite IH. replace (0 + S k * step)%nat
      with (S (pred step + k * step)) by lia. done.
  - rewrite IH. done.
Qed.

Lemma length_by_lookup {A} (l : list A) (q : nat) :
  (∀ k, is_Some (l !! k) ↔ (k < q)%nat) → length l = q.
Proof.
  intros H. pose proof (H q) as Hq. pose proof (H (length l)) as Hl.
  rewrite lookup_lt_is_Some in Hq, Hl. lia.
Qed.

Lemma length_stride_exact {A} (step q : nat) (l : list A) :
  (1 ≤ step)%nat → length l = (q * step)%nat →
  length (stride_from step 0 l) = q.
Proof.
  intros Hstep Hlen. apply length_by_lookup. intros k.
  rewrite lookup_stride_from, lookup_lt_is_Some, Hlen by done. nia.
Qed.

Lemma slice_take {A} (l : list A) (j : Z) :
  0 ≤ j → slice l 0 j = take (Z.to_nat j) l.
Proof.
  intros Hj. unfold slice, clamp_index. rewrite !decide_False by lia.
  replace (Z.to_nat (0 `min` Z.of_nat (length l))) with O by lia.
  rewrite drop_0.
  destruct (decide (j ≤ Z.of_nat (length l))) as [Hle|Hgt].
  - f_equal. lia.
  - rewrite !take_ge by lia. done.
Qed.

(** Run every bind whose first computation has returned. *)
Ltac run_returns :=
  repeat (change (Return ?x ≫= ?f) with (f x); cbn beta zeta).

(** One table: blocks of [n_features] amplitudes, each with the phase of
    the first sample of the block. *)
Lemma mode_table (m : list C) (q : nat) :
  length m = (q * 8)%nat →
  ∃ T,
    reshape_rows (Cabs <$> m) n_features
      = Return (chunks q 8 (Cabs <$> m)) ∧
    strided m n_features = Return (stride_from 8 0 m) ∧
    concatenate_columns
      (slice (chunks q 8 (Cabs <$> m)) 0 size_02)
      (slice (as_column (Cangle <$> stride_from 8 0 m)) 0 size_02)
      = Return T ∧
    Z.of_nat (length T) = Z.min 5000 (Z.of_nat q) ∧
    Forall (λ row, length row = 9%nat) T ∧
    ∀ k : nat, Z.of_nat k < Z.min 5000 (Z.of_nat q) →
      ∃ z, m !! (k * 8)%nat = Some z ∧
           T !! k = Some (window (Cabs <$> m) (k * 8) 8 ++ [Cangle z]).
Proof.
  intros Hlen.
  assert (Hstride : length (stride_from 8 0 m) = q)
    by (apply length_stride_exact; [lia|done]).
  assert (Hrows : ∀ k : nat, Z.of_nat k < Z.min 5000 (Z.of_nat q) →
    ∃ z, m !! (k * 8)%nat = Some z ∧
      zip_with app (take (Z.to_nat size_02) (chunks q 8 (Cabs <$> m)))
        (take (Z.to_nat size_02) (as_column (Cangle <$> stride_from 8 0 m)))
        !! k = Some (window (Cabs <$> m) (k * 8) 8 ++ [Cangle z])).
  { intros k Hk.
    destruct (lookup_lt_is_Some_2 m (k * 8)) as [z Hz]; [lia|].
    exists z. split; [done|].
    rewrite lookup_zip_with, !lookup_take_lt by (unfold size_02; lia).
    rewrite lookup_chunks by lia. cbn. unfold as_column.
    rewrite !list_lookup_fmap, lookup_stride_from by lia. cbn.
    by rewrite Hz. }
  eexists. split; [|split; [|split; [|split; [|split]]]].
  - unfold reshape_rows, n_features, SpS_02. rewrite decide_False by lia.
    rewrite length_fmap, Hlen.
    rewrite decide_True by (rewrite Nat2Z.inj_mul; apply Z_mod_mult).
    do 2 f_equal. rewrite Nat2Z.inj_mul, Z_div_mult by lia. lia.
  - unfold strided, n_features, SpS_02. rewrite decide_False by lia.
    by rewrite decide_True by lia.
  - unfold concatenate_columns. rewrite !slice_take by (unfold size_02; lia).
    rewrite decide_True; [reflexivity|].
    unfold as_column.
    by rewrite !length_take, !length_fmap, length_chunks, Hstride.
  - rewrite length_zip_with, !length_take. unfold as_column, size_02.
    rewrite !length_fmap, length_chunks, Hstride. lia.
  - apply Forall_lookup. intros k row Hrow.
    assert (Hk : Z.of_nat k < Z.min 5000 (Z.of_nat q)).
    { apply lookup_lt_Some in Hrow.
      rewrite length_zip_with, !length_take in Hrow.
      unfold as_column, size_02 in Hrow.
      rewrite !length_fmap, length_chunks, Hstride in Hrow. lia. }
    destruct (Hrows k Hk) as (z & _ & Hrow'). rewrite Hrow' in Hrow.
    injection Hrow as <-. rewrite length_app, length_window; cbn.
    + lia.
    + rewrite length_fmap. lia.
  - exact Hrows.
Qed.

(** X15. The tables of the export script.  On a signal with at least two
    modes of [8q] samples each, the script's table construction returns a
    training table from mode 0 and a test table from mode 1, each of
    [min(5000, q)] rows of nine entries; row [k] holds the eight amplitudes
    of block [k] (samples [8k .. 8k+7], blocks do not overlap) followed by
    the phase of sample [8k], the first of the block. *)
Theorem dataset_tables_rows (sfm : Signal) (m0 m1 : list C) (q : nat) :
  modes sfm !! 0%nat = Some m0 → modes sfm !! 1%nat = Some m1 →
  length m0 = (q * 8)%nat → length m1 = (q * 8)%nat →
  ∃ train test,
    dataset_tables sfm = Return (train, test) ∧
    Z.of_nat (length train) = Z.min 5000 (Z.of_nat q) ∧
    Z.of_nat (length test) = Z.min 5000 (Z.of_nat q) ∧
    Forall (λ row, length row = 9%nat) train ∧
    Forall (λ row, length row = 9%nat) test ∧
    ∀ k : nat, Z.of_nat k < Z.min 5000 (Z.of_nat q) →
      (∃ z, m0 !! (k * 8)%nat = Some z ∧
         train !! k = Some (window (Cabs <$> m0) (k * 8) 8 ++ [Cangle z])) ∧
      (∃ z, m1 !! (k * 8)%nat = Some z ∧
         test !! k = Some (window (Cabs <$> m1) (k * 8) 8 ++ [Cangle z])).
Proof.
  intros Hm0 Hm1 Hlen0 Hlen1.
  destruct (mode_table m0 q Hlen0)
    as (train & Hr0 & Hs0 & Hc0 & Hl0 & Hw0 & Hrows0).
  destruct (mode_table m1 q Hlen1)
    as (test & Hr1 & Hs1 & Hc1 & Hl1 & Hw1 & Hrows1).
  exists train, test. split.
  { unfold dataset_tables, getitem_at. rewrite Hm0, Hm1.
    run_returns. rewrite Hs0, Hs1. run_returns. rewrite Hr0, Hr1.
    run_returns. rewrite Hc0, Hc1. by run_returns. }
  do 4 (split; [done|]). intros k Hk. split; auto.
Qed.

Lemma dataset_tables_rows_witness :
  ∃ train test,
    dataset_tables (mkSignal [ramp_samples 16; ramp_samples 16] 1%R 1%R)
      = Return (train, test) ∧
    Z.of_nat (length train) = 2 ∧
    Forall (λ row, length row = 9%nat) train.
Proof.
  destruct (dataset_tables_rows
              (mkSignal [ramp_samples 16; ramp_samples 16] 1%R 1%R)
              (ramp_samples 16) (ramp_samples 16) 2)
    as (train & test & Hret & Hlen & _ & Hall & _).
  - reflexivity.
  - reflexivity.
  - reflexivity.
  - reflexivity.
  - exists train, test. exact (conj Hret (conj Hlen Hall)).
Defined.

Lemma strided_n_features {A} (m : list A) :
  strided m n_features = Return (stride_from 8 0 m).
Proof. done. Qed.

Lemma reshape_rows_indivisible {A} (l : list A) :
  Z.of_nat (length l) mod 8 ≠ 0 →
  reshape_rows l n_features = Raise ValueError.
Proof.
  intros H. unfold reshape_rows.
  rewrite (decide_False (P := n_features ≤ 0))
    by (unfold n_features, SpS_02; lia).
  by rewrite decide_False.
Qed.

(** X16. When the export script fails.  The table construction raises
    [IndexError] on a signal with fewer than two modes, and [ValueError]
    (from [reshape(-1, 8)]) when the modes have a sample count that is not a
    multiple of eight; it never pads or drops samples to make the blocks
    fit. *)
Theorem dataset_tables_failures (sfm : Signal) :
  ((length (modes sfm) < 2)%nat → dataset_tables sfm = Raise IndexError) ∧
  (∀ m0 m1, modes sfm !! 0%nat = Some m0 → modes sfm !! 1%nat = Some m1 →
     Z.of_nat (length m0) mod 8 ≠ 0 →
     dataset_tables sfm = Raise ValueError).
Proof.
  unfold dataset_tables, getitem_at. split.
  - intros Hlen.
    destruct (modes sfm) as [|m0 [|m1 rest]]; [done| |cbn in Hlen; lia].
    cbn [lookup list_lookup]. run_returns.
    rewrite strided_n_features. by run_returns.
  - intros m0 m1 -> -> Hmod. run_returns.
    rewrite !strided_n_features. run_returns.
    rewrite (reshape_rows_indivisible (Cabs <$> m0)); [done|].
    by rewrite length_fmap.
Qed.

Lemma dataset_tables_failures_witness :
  dataset_tables (mkSignal [ramp_samples 16] 1%R 1%R) = Raise IndexError ∧
  dataset_tables (mkSignal [ramp_samples 12; ramp_samples 12] 1%R 1%R)
    = Raise ValueError.
Proof.
  split.
  - apply (dataset_tables_failures (mkSignal [ramp_samples 16] 1%R 1%R)).
    cbn. lia.
  - apply (proj2 (dataset_tables_failures
                    (mkSignal [ramp_samples 12; ramp_samples 12] 1%R 1%R))
             (ramp_samples 12) (ramp_samples 12)).
    + reflexivity.
    + reflexivity.
    + unfold ramp_samples. rewrite length_fmap, length_seqZ. discriminate.
Defined.

(** X17. The exported table against variant 3.  On a signal with two modes
    of [8q] samples, at least 60007 of them, the training table of the export
    script is [dataset_03] at window width 8 read at every eighth row: row [k]
    of the table is feature row [8k] followed by target [8k], for each of its
    5000 rows. *)
Theorem export_rows_are_dataset_03_rows
    (sfm : Signal) (m0 m1 : list C) (q : nat) :
  modes sfm !! 0%nat = Some m0 → modes sfm !! 1%nat = Some m1 →
  length m0 = (q * 8)%nat → length m1 = (q * 8)%nat →
  size + 8 - 1 ≤ Z.of_nat (q * 8) →
  ∃ train test data X y,
    dataset_tables sfm = Return (train, test) ∧
    dataset_03 sfm 8 = Return (data, X, y) ∧
    Z.of_nat (length train) = 5000 ∧
    ∀ k : nat, Z.of_nat k < 5000 →
      ∃ row p, X !! (k * 8)%nat = Some row ∧ y !! (k * 8)%nat = Some p ∧
               train !! k = Some (row ++ [p]).
Proof.
  intros Hm0 Hm1 Hlen0 Hlen1 Hlong. pose proof size_eq as Hsz.
  destruct (mode_table m0 q Hlen0)
    as (train & Hr0 & Hs0 & Hc0 & Hl0 & _ & Hrows0).
  destruct (mode_table m1 q Hlen1) as (test & Hr1 & Hs1 & Hc1 & _).
  assert (Hd : abs_and_phases sfm
               = Return (mkData (Cabs <$> m0) (Cangle <$> m0))).
  { unfold abs_and_phases. by rewrite (getitem0_lookup _ _ Hm0). }
  destruct (feature_rows_full (Cabs <$> m0) 8)
    as (X & HX & _ & _ & Hrows); [lia|rewrite length_fmap; lia|].
  destruct (slice_trace (Cangle <$> m0) 0 size) as [_ Hy];
    [lia|lia|rewrite length_fmap; lia|].
  eexists train, test, _, X, _. split; [|split; [|split]].
  - unfold dataset_tables, getitem_at. rewrite Hm0, Hm1.
    run_returns. rewrite Hs0, Hs1. run_returns. rewrite Hr0, Hr1.
    run_returns. rewrite Hc0, Hc1. by run_returns.
  - by apply (dataset_03_returns _ _ _ _ Hd HX).
  - lia.
  - intros k Hk. destruct (Hrows0 k) as (z & Hz & Hrow); [lia|].
    exists (window (Cabs <$> m0) (k * 8) 8), (Cangle z).
    split; [apply Hrows; lia|]. split; [|done]. cbn [phases].
    destruct (Hy (k * 8)%nat) as [_ ->]; [lia|].
    rewrite list_lookup_fmap.
    replace (Z.to_nat (0 + Z.of_nat (k * 8))) with (k * 8)%nat by lia.
    by rewrite Hz.
Qed.

Lemma export_rows_are_dataset_03_rows_witness :
  ∃ train test data X y,
    dataset_tables
      (mkSignal [ramp_samples 60008; ramp_samples 60008] 1%R 1%R)
      = Return (train, test) ∧
    dataset_03 (mkSignal [ramp_samples 60008; ramp_samples 60008] 1%R 1%R) 8
      = Return (data, X, y) ∧
    Z.of_nat (length train) = 5000.
Proof.
  assert (Hlen : length (ramp_samples 60008) = (Z.to_nat 7501 * 8)%nat).
  { unfold ramp_samples. rewrite length_fmap, length_seqZ. lia. }
  destruct (export_rows_are_dataset_03_rows
              (mkSignal [ramp_samples 60008; ramp_samples 60008] 1%R 1%R)
              (ramp_samples 60008) (ramp_samples 60008) (Z.to_nat 7501))
    as (train & test & data & X & y & Ht & H3 & Hl & _).
  - reflexivity.
  - reflexivity.
  - exact Hlen.
  - exact Hlen.
  - rewrite size_eq. lia.
  - exists train, test, data, X, y. exact (conj Ht (conj H3 Hl)).
Defined.

Section Script.
Local Open Scope R_scope.

(** X18. The export script from the filtered signal on.  Given a noisy
    signal whose first mode has [8q] samples, [q ≥ 1], and a filtered signal
    of at least two modes with as many samples each, the script returns two
    tables of [min(5000, q)] rows of nine entries, and no amplitude in the
    training table exceeds twice the magnitude of the offset [A] that
    [fase_min] returns. *)
Theorem dataset_test_02_tables (s sfilt : Signal) (s0 : list C) (q : nat) :
  modes s !! 0%nat = Some s0 →
  length s0 = (q * 8)%nat → (1 ≤ q)%nat →
  (2 ≤ length (modes sfilt))%nat →
  Forall (λ row, length row = length s0) (modes sfilt) →
  ∃ sfm A train test,
    fase_min s sfilt = Return (sfm, A) ∧
    dataset_test_02 s sfilt = Return (train, test) ∧
    Z.of_nat (length train) = Z.min 5000 (Z.of_nat q) ∧
    Z.of_nat (length test) = Z.min 5000 (Z.of_nat q) ∧
    Forall (λ row, length row = 9%nat) train ∧
    Forall (λ row, length row = 9%nat) test ∧
    ∀ (k j : nat) (row : list R) (a : R),
      train !! k = Some row → (j < 8)%nat → row !! j = Some a →
      0 <= a <= 2 * Cabs A.
Proof.
  intros Hs0 Hlen Hq Hmodes Hrect.
  destruct (fase_min_samples s sfilt s0)
    as (sfm & A & Hret & _ & _ & _ & Hub & Hall).
  { done. }
  { intros Hnil. rewrite Hnil in Hmodes. cbn in Hmodes. lia. }
  { intros ->. cbn in Hlen. lia. }
  { done. }
  pose proof (Forall2_length _ _ _ Hall) as Hcount.
  destruct (lookup_lt_is_Some_2 (modes sfm) 0) as [m0 Hm0]; [lia|].
  destruct (lookup_lt_is_Some_2 (modes sfm) 1) as [m1 Hm1]; [lia|].
  destruct (Forall2_lookup_l _ _ _ _ _ Hall Hm0) as (r0 & Hr0 & Hrow0).
  destruct (Forall2_lookup_l _ _ _ _ _ Hall Hm1) as (r1 & Hr1 & Hrow1).
  assert (Hl0 : length m0 = (q * 8)%nat).
  { rewrite (Forall2_length _ _ _ Hrow0), <- Hlen.
    by eapply (Forall_lookup_1 _ _ _ _ Hrect). }
  assert (Hl1 : length m1 = (q * 8)%nat).
  { rewrite (Forall2_length _ _ _ Hrow1), <- Hlen.
    by eapply (Forall_lookup_1 _ _ _ _ Hrect). }
  destruct (mode_table m0 q Hl0)
    as (train & Hre0 & Hst0 & Hc0 & Hlt0 & Hw0 & Hrows0).
  destruct (mode_table m1 q Hl1)
    as (test & Hre1 & Hst1 & Hc1 & Hlt1 & Hw1 & _).
  exists sfm, A, train, test. split; [done|]. split.
  { unfold dataset_test_02. rewrite Hret. run_returns.
    unfold dataset_tables, getitem_at. rewrite Hm0, Hm1.
    run_returns. rewrite Hst0, Hst1. run_returns. rewrite Hre0, Hre1.
    run_returns. rewrite Hc0, Hc1. by run_returns. }
  do 4 (split; [done|]).
  intros k j row a Hrow Hj Ha.
  assert (Hk : (Z.of_nat k < Z.min 5000 (Z.of_nat q))%Z).
  { apply lookup_lt_Some in Hrow. lia. }
  destruct (Hrows0 k Hk) as (z & _ & Hrow'). rewrite Hrow' in Hrow.
  injection Hrow as <-.
  rewrite lookup_app_l in Ha
    by (rewrite length_window; rewrite ?length_fmap; lia).
  rewrite lookup_window, list_lookup_fmap in Ha by done.
  destruct (m0 !! (k * 8 + j)%nat) as [z'|] eqn:Hz'; [|done].
  injection Ha as <-. split; [apply Cabs_nonneg|].
  destruct (Forall2_lookup_l _ _ _ _ _ Hrow0 Hz') as (w & Hw & θ & ->).
  etrans; [apply Cabs_triangle|]. rewrite Cabs_mult_carrier.
  assert (Cabs w <= Cabs A); [|lra].
  apply (Hub r0); by eapply list_elem_of_lookup_2.
Qed.

Lemma dataset_test_02_tables_witness :
  ∃ sfm A train test,
    fase_min (mkSignal [ramp_samples 16; ramp_samples 16] 1 1)
             (mkSignal [ramp_samples 16; ramp_samples 16] 1 1)
      = Return (sfm, A) ∧
    dataset_test_02 (mkSignal [ramp_samples 16; ramp_samples 16] 1 1)
                    (mkSignal [ramp_samples 16; ramp_samples 16] 1 1)
      = Return (train, test) ∧
    Z.of_nat (length train) = 2%Z.
Proof.
  destruct (dataset_test_02_tables
              (mkSignal [ramp_samples 16; ramp_samples 16] 1 1)
              (mkSignal [ramp_samples 16; ramp_samples 16] 1 1)
              (ramp_samples 16) 2)
    as (sfm & A & train & test & Hf & Hret & Hlen & _).
  - reflexivity.
  - reflexivity.
  - lia.
  - cbn. lia.
  - repeat constructor.
  - exists sfm, A, train, test. exact (conj Hf (conj Hret Hlen)).
Defined.

End Script.
